(** * Smart Data Processing Framework

    A shallow embedding of the bounded blocking queue ([DataQueue.h]), the
    processing strategies ([Processor.h]), their factory
    ([ProcessorFactory.h]) and the worker-pool pipeline
    ([ProcessingSystem.h]), followed by the properties checked on them.

    Blocking is modelled explicitly.  A call that waits on a condition
    variable is given a _schedule_: the list of its wait rounds, each round
    recording what the other threads did to the shared queue while the
    mutex was released and how many milliseconds went by before the waiter
    was woken.  A call whose schedule runs out while its predicate is still
    false has not returned: its outcome is [Blocked]. *)

From Stdlib Require Import ZArith Bool Floats.
From stdpp Require Import gmap strings list.

(** ** DataQueue<T> *)

Module Queue.
Section WithItem.
Context {T : Type}.

(** The data members; [mutex_] and the two condition variables are the
    synchronisation discipline the schedules below stand for. *)
Record DataQueue : Type := mkDataQueue {
  queue_ : list T;
  maxSize_ : nat;
  shutdown_ : bool
}.

(** [explicit DataQueue(size_t maxSize)] *)
Definition create (maxSize : nat) : DataQueue :=
  {| queue_ := []; maxSize_ := maxSize; shutdown_ := false |}.

(** The predicate of the producers' wait: [queue_.size() < maxSize_ && !shutdown_]. *)
Definition notFull_pred (q : DataQueue) : bool :=
  (length (queue_ q) <? maxSize_ q)%nat && negb (shutdown_ q).

(** The predicate of the consumers' wait: [!queue_.empty() || shutdown_]. *)
Definition notEmpty_pred (q : DataQueue) : bool :=
  negb (bool_decide (queue_ q = [])) || shutdown_ q.

Definition push_back (item : T) (q : DataQueue) : DataQueue :=
  {| queue_ := queue_ q ++ [item]; maxSize_ := maxSize_ q; shutdown_ := shutdown_ q |}.

Definition pop_front (q : DataQueue) : DataQueue :=
  {| queue_ := tail (queue_ q); maxSize_ := maxSize_ q; shutdown_ := shutdown_ q |}.

(** [void clear()] *)
Definition clear (q : DataQueue) : DataQueue :=
  {| queue_ := []; maxSize_ := maxSize_ q; shutdown_ := shutdown_ q |}.

(** [void shutdown()]; the destructor calls it too. *)
Definition shutdown (q : DataQueue) : DataQueue :=
  {| queue_ := queue_ q; maxSize_ := maxSize_ q; shutdown_ := true |}.

(** [peek], [size], [empty], [full], [isShutdown]: one locked read each. *)
Definition peek (q : DataQueue) : option T := head (queue_ q).
Definition size (q : DataQueue) : nat := length (queue_ q).
Definition empty (q : DataQueue) : bool := bool_decide (queue_ q = []).
Definition full (q : DataQueue) : bool := (maxSize_ q <=? length (queue_ q))%nat.
Definition isShutdown (q : DataQueue) : bool := shutdown_ q.

(** What another thread's critical section can do to the queue while a
    waiter has released the mutex: a producer that gets through its own
    wait and pushes, a consumer that pops, [clear], [shutdown]. *)
Inductive qop : Type :=
| OpPush (item : T)
| OpPop
| OpClear
| OpShutdown.

Definition apply_qop (o : qop) (q : DataQueue) : DataQueue :=
  match o with
  | OpPush item => if notFull_pred q then push_back item q else q
  | OpPop => pop_front q
  | OpClear => clear q
  | OpShutdown => shutdown q
  end.

Definition apply_qops (os : list qop) (q : DataQueue) : DataQueue :=
  foldl (fun q' o => apply_qop o q') q os.

(** One wait round and the schedule of a blocking call. *)
Record round : Type := mkRound {
  others : list qop;
  elapsed : nat
}.

Definition schedule : Type := list round.

(** A schedule during which no other thread touches the queue. *)
Definition quiet (sch : schedule) : bool :=
  forallb (fun r => bool_decide (others r = [])) sch.

Definition total_elapsed (sch : schedule) : Z :=
  foldr (fun r acc => (Z.of_nat (elapsed r) + acc)%Z) 0%Z sch.

(** Result of a condition-variable wait: [Woken b q] when the wait returned
    [b] with the queue in state [q] (mutex held again), [Stuck q] when the
    schedule ended with the thread still waiting. *)
Inductive waited : Type :=
| Woken (satisfied : bool) (q : DataQueue)
| Stuck (q : DataQueue).

(** [cv.wait(lock, pred)]: [while (!pred()) wait(lock);] *)
Fixpoint cv_wait (pred : DataQueue -> bool) (q : DataQueue) (sch : schedule) : waited :=
  if pred q then Woken true q
  else match sch with
       | [] => Stuck q
       | r :: sch' => cv_wait pred (apply_qops (others r) q) sch'
       end.

(** [cv.wait_for(lock, rel_time, pred)]:
    [while (!pred()) if (wait_until(lock, deadline) == timeout) return pred(); return true;] *)
Fixpoint cv_wait_for (pred : DataQueue -> bool) (rel_time : Z) (q : DataQueue)
    (sch : schedule) : waited :=
  if pred q then Woken true q
  else match sch with
       | [] => Stuck q
       | r :: sch' =>
           let q' := apply_qops (others r) q in
           if (rel_time <=? Z.of_nat (elapsed r))%Z then Woken (pred q') q'
           else cv_wait_for pred (rel_time - Z.of_nat (elapsed r))%Z q' sch'
       end.

(** Outcome of a blocking member function. *)
Inductive outcome (R : Type) : Type :=
| Returned (r : R) (q : DataQueue)
| Blocked (q : DataQueue).
Arguments Returned {R} r q.
Arguments Blocked {R} q.

Definition state_of {R : Type} (o : outcome R) : DataQueue :=
  match o with
  | Returned _ q => q
  | Blocked q => q
  end.

Definition result_of {R : Type} (o : outcome R) : option R :=
  match o with
  | Returned r _ => Some r
  | Blocked _ => None
  end.

(** [bool enqueue(const T& item, int timeoutMs = -1)] *)
Definition enqueue (item : T) (timeoutMs : Z) (q : DataQueue) (sch : schedule)
    : outcome bool :=
  let w := if (0 <? timeoutMs)%Z
           then cv_wait_for notFull_pred timeoutMs q sch
           else cv_wait notFull_pred q sch in
  match w with
  | Stuck q' => Blocked q'
  | Woken false q' => Returned false q'
  | Woken true q' =>
      if shutdown_ q' then Returned false q'
      else Returned true (push_back item q')
  end.

(** [std::optional<T> dequeue(int timeoutMs = -1)] *)
Definition dequeue (timeoutMs : Z) (q : DataQueue) (sch : schedule)
    : outcome (option T) :=
  let w := if (0 <? timeoutMs)%Z
           then cv_wait_for notEmpty_pred timeoutMs q sch
           else cv_wait notEmpty_pred q sch in
  match w with
  | Stuck q' => Blocked q'
  | Woken false q' => Returned None q'
  | Woken true q' =>
      match queue_ q' with
      | [] => Returned None q'
      | item :: _ => Returned (Some item) (pop_front q')
      end
  end.

(** [Stats getStats() const] *)
Record Stats : Type := mkStats {
  currentSize : nat;
  maxSize : nat;
  isFull : bool;
  isEmpty : bool
}.

Definition getStats (q : DataQueue) : Stats :=
  {| currentSize := length (queue_ q);
     maxSize := maxSize_ q;
     isFull := (maxSize_ q <=? length (queue_ q))%nat;
     isEmpty := bool_decide (queue_ q = []) |}.

(** A member-function call together with what it needs to run.  The calls
    of a sequence may come from different threads: one that is still blocked
    when its schedule ends leaves the queue as its wait last saw it. *)
Inductive call : Type :=
| CallEnqueue (item : T) (timeoutMs : Z) (sch : schedule)
| CallDequeue (timeoutMs : Z) (sch : schedule)
| CallPeek
| CallClear
| CallShutdown.

Definition run_call (c : call) (q : DataQueue) : DataQueue :=
  match c with
  | CallEnqueue item t sch => state_of (enqueue item t q sch)
  | CallDequeue t sch => state_of (dequeue t q sch)
  | CallPeek => q
  | CallClear => clear q
  | CallShutdown => shutdown q
  end.

Definition run_calls (cs : list call) (q : DataQueue) : DataQueue :=
  foldl (fun q' c => run_call c q') q cs.

(** [n] dequeues in a row by one consumer, each with its own timeout and
    schedule; stops at the first one that does not return. *)
Fixpoint dequeue_all (args : list (Z * schedule)) (q : DataQueue)
    : list (option T) * DataQueue :=
  match args with
  | [] => ([], q)
  | (t, sch) :: args' =>
      match dequeue t q sch with
      | Blocked q' => ([], q')
      | Returned r q' =>
          let '(rs, q'') := dequeue_all args' q' in (r :: rs, q'')
      end
  end.

(** Enqueues in a row by one producer, each with its own timeout and
    schedule; stops at the first one that does not return. *)
Fixpoint enqueue_all (args : list (T * Z * schedule)) (q : DataQueue)
    : list bool * DataQueue :=
  match args with
  | [] => ([], q)
  | (item, t, sch) :: args' =>
      match enqueue item t q sch with
      | Blocked q' => ([], q')
      | Returned b q' =>
          let '(bs, q'') := enqueue_all args' q' in (b :: bs, q'')
      end
  end.

(** *** Vocabulary of the properties below *)

(** The queue holds no more than its capacity. *)
Definition bounded (q : DataQueue) : Prop := (length (queue_ q) <= maxSize_ q)%nat.

(** [q'] comes after [q] in the life of one queue object: same capacity,
    still within it, the shutdown flag not taken back. *)
Definition evolves (q q' : DataQueue) : Prop :=
  maxSize_ q' = maxSize_ q
  /\ (bounded q -> bounded q')
  /\ (shutdown_ q = true -> shutdown_ q' = true).

Definition waited_state (w : waited) : DataQueue :=
  match w with
  | Woken _ q => q
  | Stuck q => q
  end.

(** The wait at the head of [enqueue] and of [dequeue]. *)
Definition wait_of (pred : DataQueue -> bool) (timeoutMs : Z)
    (q : DataQueue) (sch : schedule) : waited :=
  if (0 <? timeoutMs)%Z then cv_wait_for pred timeoutMs q sch
  else cv_wait pred q sch.

End WithItem.
Arguments DataQueue T : clear implicits.
Arguments qop T : clear implicits.
Arguments round T : clear implicits.
Arguments schedule T : clear implicits.
Arguments waited T : clear implicits.
Arguments outcome T R : clear implicits.
Arguments Returned {T R} r q.
Arguments Blocked {T R} q.
Arguments call T : clear implicits.
End Queue.

(** ** Processor<T> and its implementations *)

Module Processor.

(** C++ [int]: 32 bits, two's complement; arithmetic results are written
    with their wrap-around (signed overflow itself is undefined in C++). *)
Definition wrap32 (z : Z) : Z := ((z + 2 ^ 31) mod 2 ^ 32 - 2 ^ 31)%Z.

(** [static_cast<int>(double)]: truncation toward zero (a value out of
    the range of [int] is undefined in C++; the users below wrap it). *)
Definition trunc_double (d : float) : Z :=
  match Prim2SF d with
  | S754_finite s m e =>
      let v := if (0 <=? e)%Z then (Z.pos m * 2 ^ e)%Z
               else (Z.pos m / 2 ^ (- e))%Z in
      if s then (- v)%Z else v
  | _ => 0%Z
  end.

(** The promotion of an [int] to [double]. *)
Definition double_of_int (z : Z) : float :=
  if (z <? 0)%Z then (- PrimFloat.of_uint63 (Uint63.of_Z (- z)))%float
  else PrimFloat.of_uint63 (Uint63.of_Z z).

(** What the class templates ask of their item type [T]: [T()] and the
    literal 0, [+=], [*], the division [total_ / count_] by an [int], [>=],
    and the conversions from and to [double]. *)
Class Numeric (T : Type) : Type := {
  num_zero : T;
  num_add : T -> T -> T;
  num_mul : T -> T -> T;
  num_div_count : T -> Z -> T;
  num_ge : T -> T -> bool;
  num_of_double : float -> T;
  num_to_double : T -> float
}.

#[export] Instance Numeric_int : Numeric Z := {|
  num_zero := 0%Z;
  num_add := fun a b => wrap32 (a + b);
  num_mul := fun a b => wrap32 (a * b);
  num_div_count := fun a c => wrap32 (Z.quot a c);
  num_ge := fun a b => (b <=? a)%Z;
  num_of_double := fun d => wrap32 (trunc_double d);
  num_to_double := double_of_int
|}.

#[export] Instance Numeric_double : Numeric float := {|
  num_zero := 0%float;
  num_add := PrimFloat.add;
  num_mul := PrimFloat.mul;
  num_div_count := fun a c => PrimFloat.div a (double_of_int c);
  num_ge := fun a b => PrimFloat.leb b a;
  num_of_double := fun d => d;
  num_to_double := fun d => d
|}.

(** The four class templates derived from [Processor<T>], one constructor
    each, carrying their data members. *)
Inductive Processor (T : Type) : Type :=
| NumericProcessor (multiplier_ : T)
| StatisticalProcessor (total_ : T) (count_ : Z)
| FilteringProcessor (threshold_ : T)
| AmplificationProcessor (gain_ : float).
Arguments NumericProcessor {T} multiplier_.
Arguments StatisticalProcessor {T} total_ count_.
Arguments FilteringProcessor {T} threshold_.
Arguments AmplificationProcessor {T} gain_.

(** A default-constructed [StatisticalProcessor]: [total_ = 0], [count_ = 0]. *)
Definition StatisticalProcessor_new {T : Type} `{Numeric T} : Processor T :=
  StatisticalProcessor num_zero 0%Z.

(** [T process(const T& input)]: the processor after the call and the value returned. *)
Definition process {T : Type} `{Numeric T} (p : Processor T) (input : T)
    : Processor T * T :=
  match p with
  | NumericProcessor multiplier => (p, num_mul input multiplier)
  | StatisticalProcessor total count =>
      let total' := num_add total input in
      let count' := wrap32 (count + 1) in
      (StatisticalProcessor total' count', num_div_count total' count')
  | FilteringProcessor threshold =>
      (p, if num_ge input threshold then input else num_zero)
  | AmplificationProcessor gain =>
      (p, num_of_double (PrimFloat.mul (num_to_double input) gain))
  end.

Definition getName {T : Type} (p : Processor T) : string :=
  match p with
  | NumericProcessor _ => "NumericProcessor"
  | StatisticalProcessor _ _ => "StatisticalProcessor"
  | FilteringProcessor _ => "FilteringProcessor"
  | AmplificationProcessor _ => "AmplificationProcessor"
  end.

(** [void reset()] *)
Definition reset {T : Type} `{Numeric T} (p : Processor T) : Processor T :=
  match p with
  | StatisticalProcessor _ _ => StatisticalProcessor num_zero 0%Z
  | _ => p
  end.

(** Feeding a processor a sequence of inputs, one call after the other. *)
Fixpoint process_all {T : Type} `{Numeric T} (p : Processor T) (inputs : list T)
    : Processor T * list T :=
  match inputs with
  | [] => (p, [])
  | x :: xs =>
      let '(p', y) := process p x in
      let '(p'', ys) := process_all p' xs in
      (p'', y :: ys)
  end.

(** The specialisation [NumericProcessor<std::string>]. *)
Record StringProcessor : Type := mkStringProcessor { repetitions_ : Z }.

Fixpoint repeat_string (n : nat) (input : string) : string :=
  match n with
  | O => ""
  | S n' => repeat_string n' input +:+ input
  end.

Definition process_string (p : StringProcessor) (input : string)
    : StringProcessor * string :=
  (p, repeat_string (Z.to_nat (repetitions_ p)) input).

Definition getName_string (p : StringProcessor) : string := "StringProcessor".

(** The values an [int] can hold, and the sum of a list of them taken in
    the integers. *)
Definition in_int (z : Z) : Prop := (- 2 ^ 31 <= z < 2 ^ 31)%Z.

Definition sum_int (xs : list Z) : Z := foldr Z.add 0%Z xs.

End Processor.

(** ** ProcessorFactory<T> *)

Module ProcessorFactory.
Import Processor.

(** [enum class ProcessorType], by its underlying value: a variable of the
    enumeration type can hold any [int]. *)
Definition ProcessorType : Type := Z.
Definition NUMERIC : ProcessorType := 0%Z.
Definition STATISTICAL : ProcessorType := 1%Z.
Definition FILTERING : ProcessorType := 2%Z.
Definition AMPLIFICATION : ProcessorType := 3%Z.

(** [std::invalid_argument] with its message. *)
Inductive exn : Type := invalid_argument (what : string).

(** [params.count(k) ? params.at(k) : dflt] *)
Definition param (params : gmap string float) (k : string) (dflt : float) : float :=
  match params !! k with
  | Some v => v
  | None => dflt
  end.

(** The primary template's [createProcessor]. *)
Definition createProcessor {T : Type} `{Numeric T}
    (type : ProcessorType) (params : gmap string float) : Processor T + exn :=
  if (type =? NUMERIC)%Z then
    inl (NumericProcessor (num_of_double (param params "multiplier" 2%float)))
  else if (type =? STATISTICAL)%Z then
    inl StatisticalProcessor_new
  else if (type =? FILTERING)%Z then
    inl (FilteringProcessor (num_of_double (param params "threshold" 0%float)))
  else if (type =? AMPLIFICATION)%Z then
    inl (AmplificationProcessor (param params "gain" 1.5%float))
  else
    inr (invalid_argument "Unknown processor type").

(** [ProcessorFactory<std::string>::createProcessor]. *)
Definition createProcessor_string
    (type : ProcessorType) (params : gmap string float) : StringProcessor + exn :=
  if (type =? NUMERIC)%Z then
    inl (mkStringProcessor
           (match params !! "repetitions" with
            | Some v => wrap32 (trunc_double v)
            | None => 2%Z
            end))
  else if (type =? STATISTICAL)%Z || (type =? FILTERING)%Z
          || (type =? AMPLIFICATION)%Z then
    inr (invalid_argument "This processor type is not supported for strings")
  else
    inr (invalid_argument "Unknown processor type").

Definition known (type : ProcessorType) : bool :=
  (type =? NUMERIC)%Z || (type =? STATISTICAL)%Z || (type =? FILTERING)%Z
  || (type =? AMPLIFICATION)%Z.

End ProcessorFactory.

(** ** ProcessingSystem<T> *)

Module System.
Import Queue.
Section WithProcessor.
Context {T P : Type}.

(** The virtual interface [Processor<T>] as the pipeline uses it: the
    processor object after [process] and the value returned, [None] when the
    call threw. *)
Variable process : P -> T -> P * option T.
Variable getName : P -> string.

(** [std::atomic<size_t>]: 64 bits, increments wrap. *)
Definition incr (n : Z) : Z := ((n + 1) mod 2 ^ 64)%Z.

(** Where a worker thread stands in [workerThread]. *)
Inductive worker : Type :=
| AtLoop
| InDequeue (rel_time : Z)
| HasItem (item : T)
| InEnqueue (result : T) (rel_time : Z)
| Finished.

Record ProcessingSystem : Type := mkProcessingSystem {
  numWorkers_ : nat;
  inputQueue_ : DataQueue T;
  outputQueue_ : DataQueue T;
  workers_ : list worker;
  isRunning_ : bool;
  processor_ : option P;
  totalProcessed_ : Z;
  totalErrors_ : Z
}.

Definition set_inputQueue (q : DataQueue T) (s : ProcessingSystem) : ProcessingSystem :=
  mkProcessingSystem (numWorkers_ s) q (outputQueue_ s) (workers_ s)
    (isRunning_ s) (processor_ s) (totalProcessed_ s) (totalErrors_ s).

Definition set_outputQueue (q : DataQueue T) (s : ProcessingSystem) : ProcessingSystem :=
  mkProcessingSystem (numWorkers_ s) (inputQueue_ s) q (workers_ s)
    (isRunning_ s) (processor_ s) (totalProcessed_ s) (totalErrors_ s).

Definition set_workers (ws : list worker) (s : ProcessingSystem) : ProcessingSystem :=
  mkProcessingSystem (numWorkers_ s) (inputQueue_ s) (outputQueue_ s) ws
    (isRunning_ s) (processor_ s) (totalProcessed_ s) (totalErrors_ s).

Definition set_isRunning (b : bool) (s : ProcessingSystem) : ProcessingSystem :=
  mkProcessingSystem (numWorkers_ s) (inputQueue_ s) (outputQueue_ s) (workers_ s)
    b (processor_ s) (totalProcessed_ s) (totalErrors_ s).

Definition set_processor (p : option P) (s : ProcessingSystem) : ProcessingSystem :=
  mkProcessingSystem (numWorkers_ s) (inputQueue_ s) (outputQueue_ s) (workers_ s)
    (isRunning_ s) p (totalProcessed_ s) (totalErrors_ s).

Definition incr_processed (s : ProcessingSystem) : ProcessingSystem :=
  mkProcessingSystem (numWorkers_ s) (inputQueue_ s) (outputQueue_ s) (workers_ s)
    (isRunning_ s) (processor_ s) (incr (totalProcessed_ s)) (totalErrors_ s).

Definition incr_errors (s : ProcessingSystem) : ProcessingSystem :=
  mkProcessingSystem (numWorkers_ s) (inputQueue_ s) (outputQueue_ s) (workers_ s)
    (isRunning_ s) (processor_ s) (totalProcessed_ s) (incr (totalErrors_ s)).

Definition set_worker (i : nat) (w : worker) (s : ProcessingSystem) : ProcessingSystem :=
  set_workers (<[i := w]> (workers_ s)) s.

(** [explicit ProcessingSystem(size_t numWorkers, size_t queueSize)] *)
Definition create (numWorkers queueSize : nat) : ProcessingSystem :=
  {| numWorkers_ := numWorkers;
     inputQueue_ := Queue.create queueSize;
     outputQueue_ := Queue.create queueSize;
     workers_ := [];
     isRunning_ := false;
     processor_ := None;
     totalProcessed_ := 0;
     totalErrors_ := 0 |}.

(** [void start()] *)
Definition start (s : ProcessingSystem) : ProcessingSystem :=
  if isRunning_ s then s
  else
    let s1 := set_isRunning true s in
    match processor_ s1 with
    | None => set_isRunning false s1
    | Some _ =>
        set_workers (workers_ s1 ++ replicate (numWorkers_ s1) AtLoop) s1
    end.

(** [void setProcessor(std::shared_ptr<Processor<T>> processor)] *)
Definition setProcessor (p : P) (s : ProcessingSystem) : ProcessingSystem :=
  set_processor (Some p) s.

(** Outcome of a member function of the pipeline that can block. *)
Inductive result (R : Type) : Type :=
| Done (r : R) (s : ProcessingSystem)
| Waiting (s : ProcessingSystem).
Arguments Done {R} r s.
Arguments Waiting {R} s.

Definition system_of {R : Type} (o : result R) : ProcessingSystem :=
  match o with
  | Done _ s => s
  | Waiting s => s
  end.

Definition value_of {R : Type} (o : result R) : option R :=
  match o with
  | Done r _ => Some r
  | Waiting _ => None
  end.

(** [bool addData(const T& data, int timeoutMs = 1000)]; the schedule is
    that of the wait inside [inputQueue_.enqueue]. *)
Definition addData (data : T) (timeoutMs : Z) (s : ProcessingSystem)
    (sch : schedule T) : result bool :=
  if negb (isRunning_ s) then Done false s
  else
    match enqueue data timeoutMs (inputQueue_ s) sch with
    | Returned b q => Done b (set_inputQueue q s)
    | Blocked q => Waiting (set_inputQueue q s)
    end.

(** [std::optional<T> getResult(int timeoutMs = 1000)] *)
Definition getResult (timeoutMs : Z) (s : ProcessingSystem) (sch : schedule T)
    : result (option T) :=
  match dequeue timeoutMs (outputQueue_ s) sch with
  | Returned r q => Done r (set_outputQueue q s)
  | Blocked q => Waiting (set_outputQueue q s)
  end.

(** The loop of [getResults]: [count] iterations left, [results] collected
    so far, one schedule per [dequeue] (none left: nothing else happens). *)
Fixpoint getResults_loop (count : nat) (timeoutMs : Z) (s : ProcessingSystem)
    (schs : list (schedule T)) (results : list T) : result (list T) :=
  match count with
  | O => Done results s
  | S count' =>
      match dequeue timeoutMs (outputQueue_ s) (hd [] schs) with
      | Blocked q => Waiting (set_outputQueue q s)
      | Returned r q =>
          getResults_loop count' timeoutMs (set_outputQueue q s) (tl schs)
            (match r with
             | Some v => results ++ [v]
             | None => results
             end)
      end
  end.

(** [std::vector<T> getResults(size_t count, int timeoutMs = 100)] *)
Definition getResults (count : nat) (timeoutMs : Z) (s : ProcessingSystem)
    (schs : list (schedule T)) : result (list T) :=
  getResults_loop count timeoutMs s schs [].

(** [Statistics getStatistics() const] *)
Record Statistics : Type := mkStatistics {
  inputQueueSize : nat;
  outputQueueSize : nat;
  totalProcessed : Z;
  totalErrors : Z;
  isRunning : bool;
  processorName : string
}.

Definition getStatistics (s : ProcessingSystem) : Statistics :=
  {| inputQueueSize := size (inputQueue_ s);
     outputQueueSize := size (outputQueue_ s);
     totalProcessed := totalProcessed_ s;
     totalErrors := totalErrors_ s;
     isRunning := isRunning_ s;
     processorName := match processor_ s with
                      | Some p => getName p
                      | None => "None"
                      end |}.

(** *** The worker threads *)

(** [processorMutex_] is held exactly while a worker is inside the
    [try] block; the only place it can be descheduled there is the wait of
    [outputQueue_.enqueue]. *)
Definition holds_mutex (w : worker) : bool :=
  match w with
  | InEnqueue _ _ => true
  | _ => false
  end.

Definition mutex_held (s : ProcessingSystem) : bool :=
  existsb holds_mutex (workers_ s).

Definition is_finished (w : worker) : bool :=
  match w with
  | Finished => true
  | _ => false
  end.

(** Worker [i] inside [inputQueue_.dequeue(500)], with [rel_time] of the
    timeout to go, [left] of it if the wait does not end in this turn. *)
Definition worker_dequeue (i : nat) (rel_time : Z) (sch : schedule T) (left : Z)
    (s : ProcessingSystem) : ProcessingSystem :=
  match dequeue rel_time (inputQueue_ s) sch with
  | Returned (Some item) q => set_worker i (HasItem item) (set_inputQueue q s)
  | Returned None q => set_worker i AtLoop (set_inputQueue q s)
  | Blocked q => set_worker i (InDequeue left) (set_inputQueue q s)
  end.

(** Worker [i] inside [outputQueue_.enqueue(result, 500)]. *)
Definition worker_enqueue (i : nat) (res : T) (rel_time : Z) (sch : schedule T)
    (left : Z) (s : ProcessingSystem) : ProcessingSystem :=
  match enqueue res rel_time (outputQueue_ s) sch with
  | Returned true q => set_worker i AtLoop (incr_processed (set_outputQueue q s))
  | Returned false q => set_worker i AtLoop (incr_errors (set_outputQueue q s))
  | Blocked q => set_worker i (InEnqueue res left) (set_outputQueue q s)
  end.

(** Worker [i] gets the processor to run, [ms] milliseconds after it last
    did, and runs up to its next wait. *)
Definition run_worker (i : nat) (ms : nat) (s : ProcessingSystem) : ProcessingSystem :=
  match workers_ s !! i with
  | None => s
  | Some AtLoop =>
      if isRunning_ s || negb (empty (inputQueue_ s))
      then worker_dequeue i 500 [] 500 s
      else set_worker i Finished s
  | Some (InDequeue rel_time) =>
      worker_dequeue i rel_time [mkRound [] ms] (rel_time - Z.of_nat ms) s
  | Some (HasItem item) =>
      if mutex_held s then s
      else
        match processor_ s with
        | None => set_worker i AtLoop (incr_errors s)
        | Some p =>
            match process p item with
            | (p', None) => set_worker i AtLoop (incr_errors (set_processor (Some p') s))
            | (p', Some res) =>
                worker_enqueue i res 500 [] 500 (set_processor (Some p') s)
            end
        end
  | Some (InEnqueue res rel_time) =>
      worker_enqueue i res rel_time [mkRound [] ms] (rel_time - Z.of_nat ms) s
  | Some Finished => s
  end.

(** What happens around the calling thread: a worker runs, or an outside
    consumer takes a result off the output queue. *)
Inductive event : Type :=
| Run (i : nat) (ms : nat)
| Consume.

Definition run_event (e : event) (s : ProcessingSystem) : ProcessingSystem :=
  match e with
  | Run i ms => run_worker i ms s
  | Consume => set_outputQueue (pop_front (outputQueue_ s)) s
  end.

Definition run_events (es : list event) (s : ProcessingSystem) : ProcessingSystem :=
  foldl (fun s' e => run_event e s') s es.

Definition is_consume (e : event) : bool :=
  match e with
  | Consume => true
  | Run _ _ => false
  end.

(** [void stop()]; [join] is what goes on while the caller sits in the
    [join()] calls.  The call is [Done] once every worker has left its loop. *)
Definition stop (s : ProcessingSystem) (join : list event) : result unit :=
  if negb (isRunning_ s) then Done tt s
  else
    let s1 := set_inputQueue (shutdown (inputQueue_ s)) (set_isRunning false s) in
    let s2 := run_events join s1 in
    if forallb is_finished (workers_ s2) then Done tt (set_workers [] s2)
    else Waiting s2.

(** The queues are private members: all that another thread can do to the
    output queue while a consumer waits on it is a worker's push or another
    consumer's pop. *)
Definition output_op (o : qop T) : bool :=
  match o with
  | OpPush _ | OpPop => true
  | OpClear | OpShutdown => false
  end.

Definition output_schedule (sch : schedule T) : bool :=
  forallb (fun r => forallb output_op (others r)) sch.

(** The states a pipeline can be in. *)
Inductive reachable : ProcessingSystem -> Prop :=
| reach_create numWorkers queueSize : reachable (create numWorkers queueSize)
| reach_start s : reachable s -> reachable (start s)
| reach_stop s join : reachable s -> reachable (system_of (stop s join))
| reach_setProcessor s p : reachable s -> reachable (setProcessor p s)
| reach_addData s data t sch :
    reachable s -> reachable (system_of (addData data t s sch))
| reach_getResult s t sch :
    reachable s -> output_schedule sch = true ->
    reachable (system_of (getResult t s sch))
| reach_getResults s count t schs :
    reachable s -> forallb output_schedule schs = true ->
    reachable (system_of (getResults count t s schs))
| reach_event s e : reachable s -> reachable (run_event e s).

(** The flags, the worker count and the presence of a processor. *)
Definition same_setup (s s' : ProcessingSystem) : Prop :=
  isRunning_ s' = isRunning_ s
  /\ numWorkers_ s' = numWorkers_ s
  /\ (is_Some (processor_ s) <-> is_Some (processor_ s')).


(** What [addData] does once past the running check. *)
Definition forward_enqueue (o : outcome T bool) (s : ProcessingSystem) : result bool :=
  match o with
  | Returned b q => Done b (set_inputQueue q s)
  | Blocked q => Waiting (set_inputQueue q s)
  end.

End WithProcessor.
Arguments worker T : clear implicits.
Arguments ProcessingSystem T P : clear implicits.
Arguments result T P R : clear implicits.
Arguments Done {T P R} r s.
Arguments Waiting {T P R} s.
Arguments create {T P} numWorkers queueSize.
End System.

Import Processor ProcessorFactory Queue System.

(** [ProcessingSystem<int>]: the pipeline over [int] items with the
    processors of [Processor.h], none of which throws. *)
Definition process_int (p : Processor Z) (item : Z) : Processor Z * option Z :=
  let '(p', r) := process p item in (p', Some r).

Definition IntSystem : Type := ProcessingSystem Z (Processor Z).

Definition run_worker_int : nat -> nat -> IntSystem -> IntSystem :=
  run_worker process_int.

Definition stop_int : IntSystem -> list event -> result Z (Processor Z) unit :=
  stop process_int.

(** [setProcessorByType] of [ProcessingSystem<int>]: the factory's
    exception leaves the function before [setProcessor] is reached. *)
Definition setProcessorByType_int (type : ProcessorType)
    (params : gmap string float) (s : IntSystem) : IntSystem + exn :=
  match createProcessor type params with
  | inl p => inl (setProcessor p s)
  | inr e => inr e
  end.

(** [ProcessingSystem<std::string>] and its [setProcessorByType]. *)
Definition process_str (p : StringProcessor) (item : string)
    : StringProcessor * option string :=
  let '(p', r) := process_string p item in (p', Some r).

Definition StringSystem : Type := ProcessingSystem string StringProcessor.

Definition setProcessorByType_string (type : ProcessorType)
    (params : gmap string float) (s : StringSystem) : StringSystem + exn :=
  match createProcessor_string type params with
  | inl p => inl (setProcessor p s)
  | inr e => inr e
  end.

(** A pipeline of [int]s, one worker, queues of capacity 3, doubling its
    items: created, started, stopped while idle, started again. *)
Definition demo_fresh : IntSystem := System.create 1 3.

Definition demo_running : IntSystem :=
  start (setProcessor (NumericProcessor 2%Z) demo_fresh).

Definition demo_stopped : IntSystem :=
  system_of (stop_int demo_running [Run 0 0]).

Definition demo_restarted : IntSystem := start demo_stopped.

(** A pipeline of [int]s, two workers, running averages: 10 and 20 are
    submitted, each worker takes one, the second worker gets to the
    processor first; then the pipeline is stopped. *)
Definition avg_running : IntSystem :=
  start (setProcessor StatisticalProcessor_new (System.create 2 3)).

Definition avg_loaded : IntSystem :=
  system_of (addData 20%Z 1000 (system_of (addData 10%Z 1000 avg_running [])) []).

Definition avg_worked : IntSystem :=
  run_events process_int [Run 0 0; Run 1 0; Run 1 0; Run 0 0] avg_loaded.

Definition avg_join : list event := [Run 0 0; Run 1 0].

Definition avg_stopped : IntSystem := system_of (stop_int avg_worked avg_join).

(** A pipeline of [int]s with one worker and queues of capacity 1: the
    first result fills the output queue, the worker is left waiting to
    deliver the second. *)
Definition tight_running : IntSystem :=
  start (setProcessor (NumericProcessor 2%Z) (System.create 1 1)).

Definition tight_clogged : IntSystem :=
  run_events process_int [Run 0 0; Run 0 0]
    (system_of
       (addData 2%Z 1000
          (run_events process_int [Run 0 0; Run 0 0]
             (system_of (addData 1%Z 1000 tight_running [])))
          [])).

(** An order in which the two workers of [avg_loaded] take, process and
    deliver the two items and then leave their loops. *)
Definition avg_full_join : list event :=
  [Run 0 0; Run 1 0; Run 0 0; Run 1 0; Run 0 0; Run 1 0].

(** Three waits of 100 ms each with nobody else at the queue. *)
Definition three_waits : list (schedule Z) :=
  [[mkRound [] 100]; [mkRound [] 100]; [mkRound [] 100]].

(** Two enqueues without a timeout, of 3 and of 4. *)
Definition enqueue_args_a : list (Z * Z * schedule Z) :=
  [(3%Z, (-1)%Z, []); (4%Z, (-1)%Z, [])].

(** Queues of [int]s used as examples. *)
Definition queue_12 : DataQueue Z := push_back 2%Z (push_back 1%Z (Queue.create 5)).

Definition queue_123 : DataQueue Z :=
  push_back 3%Z (push_back 2%Z (push_back 1%Z (Queue.create 3))).

(** Arguments of consecutive [dequeue] calls: no timeout, then 100 ms; no
    timeout, then 5 ms. *)
Definition dequeue_args_a : list (Z * schedule Z) := [((-1)%Z, []); (100%Z, [])].
Definition dequeue_args_b : list (Z * schedule Z) := [((-1)%Z, []); (5%Z, [])].

(** Fifty milliseconds in two rounds with nobody else at the queue. *)
Definition fifty_ms_alone : schedule Z := [mkRound [] 20; mkRound [] 30].

Definition calls_a : list (call Z) := [CallEnqueue 1%Z (-1) []; CallShutdown].
Definition calls_b : list (call Z) :=
  [CallClear; CallEnqueue 2%Z 10 [mkRound [OpPop] 10]].

(** ** Properties of the queue *)

Section QueueFacts.
Context {T : Type}.
Implicit Types (q : DataQueue T) (sch : schedule T) (item : T).

Lemma evolves_refl q : evolves q q.
Proof. unfold evolves; tauto. Qed.

Lemma evolves_trans q1 q2 q3 : evolves q1 q2 -> evolves q2 q3 -> evolves q1 q3.
Proof.
  intros (Hm1 & Hb1 & Hs1) (Hm2 & Hb2 & Hs2).
  repeat split; [congruence | tauto | tauto].
Qed.

Lemma notFull_pred_true q :
  notFull_pred q = true <->
  (length (queue_ q) < maxSize_ q)%nat /\ shutdown_ q = false.
Proof.
  unfold notFull_pred. rewrite andb_true_iff, Nat.ltb_lt, negb_true_iff. tauto.
Qed.

Lemma notFull_pred_shutdown q : shutdown_ q = true -> notFull_pred q = false.
Proof. unfold notFull_pred. intros ->. apply andb_false_r. Qed.

Lemma notEmpty_pred_shutdown q : shutdown_ q = true -> notEmpty_pred q = true.
Proof. unfold notEmpty_pred. intros ->. apply orb_true_r. Qed.

Lemma notEmpty_pred_cons q x l : queue_ q = x :: l -> notEmpty_pred q = true.
Proof. unfold notEmpty_pred. intros ->. reflexivity. Qed.

Lemma notEmpty_pred_false q :
  notEmpty_pred q = false <-> queue_ q = [] /\ shutdown_ q = false.
Proof.
  unfold notEmpty_pred. rewrite orb_false_iff, negb_false_iff.
  rewrite bool_decide_eq_true. tauto.
Qed.

Lemma evolves_push_back item q : notFull_pred q = true -> evolves q (push_back item q).
Proof.
  intros [Hlt _]%notFull_pred_true. unfold evolves, bounded; simpl.
  rewrite length_app; simpl. repeat split; auto; lia.
Qed.

Lemma evolves_pop_front q : evolves q (pop_front q).
Proof.
  unfold evolves, bounded; simpl. repeat split; auto.
  destruct (queue_ q); simpl; lia.
Qed.

Lemma evolves_clear q : evolves q (clear q).
Proof. unfold evolves, bounded; simpl. repeat split; auto; lia. Qed.

Lemma evolves_shutdown q : evolves q (shutdown q).
Proof. unfold evolves, bounded; simpl. repeat split; auto. Qed.

Lemma evolves_apply_qop o q : evolves q (apply_qop o q).
Proof.
  destruct o; simpl.
  - destruct (notFull_pred q) eqn:E;
      [now apply evolves_push_back | apply evolves_refl].
  - apply evolves_pop_front.
  - apply evolves_clear.
  - apply evolves_shutdown.
Qed.

Lemma evolves_apply_qops os q : evolves q (apply_qops os q).
Proof.
  revert q. induction os as [|o os IH]; intros q; simpl.
  - apply evolves_refl.
  - eapply evolves_trans; [apply evolves_apply_qop | apply IH].
Qed.

Lemma cv_wait_evolves pred q sch : evolves q (waited_state (cv_wait pred q sch)).
Proof.
  revert q. induction sch as [|r sch IH]; intros q; simpl.
  - destruct (pred q); apply evolves_refl.
  - destruct (pred q); simpl; [apply evolves_refl|].
    eapply evolves_trans; [apply evolves_apply_qops | apply IH].
Qed.

Lemma cv_wait_for_evolves pred t q sch :
  evolves q (waited_state (cv_wait_for pred t q sch)).
Proof.
  revert t q. induction sch as [|r sch IH]; intros t q; simpl.
  - destruct (pred q); apply evolves_refl.
  - destruct (pred q); simpl; [apply evolves_refl|].
    destruct (t <=? Z.of_nat (elapsed r))%Z; simpl.
    + apply evolves_apply_qops.
    + eapply evolves_trans; [apply evolves_apply_qops | apply IH].
Qed.

(** A wait only ever reports the predicate as it stands on return. *)
Lemma cv_wait_woken pred q sch b q' :
  cv_wait pred q sch = Woken b q' -> b = true /\ pred q' = true.
Proof.
  revert q. induction sch as [|r sch IH]; intros q; simpl.
  - destruct (pred q) eqn:E; [|discriminate]. intros [= <- <-]. auto.
  - destruct (pred q) eqn:E; [intros [= <- <-]; auto | apply IH].
Qed.

Lemma cv_wait_for_woken pred t q sch b q' :
  cv_wait_for pred t q sch = Woken b q' -> pred q' = b.
Proof.
  revert t q. induction sch as [|r sch IH]; intros t q; simpl.
  - destruct (pred q) eqn:E; [|discriminate]. intros [= <- <-]. auto.
  - destruct (pred q) eqn:E; [intros [= <- <-]; auto |].
    destruct (t <=? Z.of_nat (elapsed r))%Z; [intros [= <- <-]; auto | apply IH].
Qed.

Lemma wait_of_evolves pred t q sch : evolves q (waited_state (wait_of pred t q sch)).
Proof.
  unfold wait_of. destruct (0 <? t)%Z;
    [apply cv_wait_for_evolves | apply cv_wait_evolves].
Qed.

Lemma wait_of_woken pred t q sch b q' :
  wait_of pred t q sch = Woken b q' -> pred q' = b.
Proof.
  unfold wait_of. destruct (0 <? t)%Z.
  - apply cv_wait_for_woken.
  - intros [-> ?]%cv_wait_woken. assumption.
Qed.

Lemma wait_of_now pred t q sch : pred q = true -> wait_of pred t q sch = Woken true q.
Proof.
  intros H. unfold wait_of.
  destruct (0 <? t)%Z; destruct sch; simpl; rewrite H; reflexivity.
Qed.

Lemma enqueue_evolves item t q sch : evolves q (state_of (enqueue item t q sch)).
Proof.
  unfold enqueue. fold (wait_of notFull_pred t q sch).
  pose proof (wait_of_evolves notFull_pred t q sch) as Hev.
  destruct (wait_of notFull_pred t q sch) as [b q'|q'] eqn:E; simpl in *; auto.
  apply wait_of_woken in E.
  destruct b; simpl; auto.
  destruct (shutdown_ q') eqn:Es; simpl; auto.
  eapply evolves_trans; [exact Hev | now apply evolves_push_back].
Qed.

Lemma dequeue_evolves t q sch : evolves q (state_of (dequeue t q sch)).
Proof.
  unfold dequeue. fold (wait_of notEmpty_pred t q sch).
  pose proof (wait_of_evolves notEmpty_pred t q sch) as Hev.
  destruct (wait_of notEmpty_pred t q sch) as [b q'|q']; simpl in *; auto.
  destruct b; simpl; auto.
  destruct (queue_ q') eqn:Eq; simpl; auto.
  eapply evolves_trans; [exact Hev | apply evolves_pop_front].
Qed.

Lemma run_call_evolves c q : evolves q (run_call c q).
Proof.
  destruct c; simpl.
  - apply enqueue_evolves.
  - apply dequeue_evolves.
  - apply evolves_refl.
  - apply evolves_clear.
  - apply evolves_shutdown.
Qed.

Lemma run_calls_evolves cs q : evolves q (run_calls cs q).
Proof.
  revert q. induction cs as [|c cs IH]; intros q; simpl.
  - apply evolves_refl.
  - eapply evolves_trans; [apply run_call_evolves | apply IH].
Qed.

(** *** Calls that do not have to wait *)

Lemma enqueue_now item t q sch :
  notFull_pred q = true -> enqueue item t q sch = Returned true (push_back item q).
Proof.
  intros H. unfold enqueue. fold (wait_of notFull_pred t q sch).
  rewrite wait_of_now by assumption.
  apply notFull_pred_true in H as [_ ->]. reflexivity.
Qed.

Lemma dequeue_now_front t q sch x l :
  queue_ q = x :: l -> dequeue t q sch = Returned (Some x) (pop_front q).
Proof.
  intros H. unfold dequeue. fold (wait_of notEmpty_pred t q sch).
  rewrite wait_of_now by (eapply notEmpty_pred_cons; eassumption).
  rewrite H. reflexivity.
Qed.

Lemma dequeue_now_drained t q sch :
  queue_ q = [] -> shutdown_ q = true -> dequeue t q sch = Returned None q.
Proof.
  intros H Hs. unfold dequeue. fold (wait_of notEmpty_pred t q sch).
  rewrite wait_of_now by (now apply notEmpty_pred_shutdown).
  rewrite H. reflexivity.
Qed.

(** *** Waiting while nobody else touches the queue *)

Lemma total_elapsed_nonneg sch : (0 <= total_elapsed sch)%Z.
Proof. induction sch as [|r sch IH]; simpl; lia. Qed.

Lemma cv_wait_for_quiet pred t q sch :
  pred q = false -> quiet sch = true -> (0 < t)%Z ->
  cv_wait_for pred t q sch =
    if (t <=? total_elapsed sch)%Z then Woken false q else Stuck q.
Proof.
  intros Hp. revert t. induction sch as [|r sch IH]; intros t Hq Ht; simpl.
  - rewrite Hp. destruct (Z.leb_spec t 0); [lia | reflexivity].
  - simpl in Hq. apply andb_true_iff in Hq as [Hr Hq].
    apply bool_decide_eq_true in Hr. rewrite Hr; simpl. rewrite Hp.
    pose proof (total_elapsed_nonneg sch).
    destruct (Z.leb_spec t (Z.of_nat (elapsed r))).
    + destruct (Z.leb_spec t (Z.of_nat (elapsed r) + total_elapsed sch)); [reflexivity | lia].
    + rewrite IH by (auto; lia).
      destruct (Z.leb_spec (t - Z.of_nat (elapsed r)) (total_elapsed sch));
        destruct (Z.leb_spec t (Z.of_nat (elapsed r) + total_elapsed sch));
        (reflexivity || lia).
Qed.

Lemma cv_wait_quiet pred q sch :
  pred q = false -> quiet sch = true -> cv_wait pred q sch = Stuck q.
Proof.
  intros Hp. induction sch as [|r sch IH]; intros Hq; simpl; rewrite Hp.
  - reflexivity.
  - simpl in Hq. apply andb_true_iff in Hq as [Hr Hq].
    apply bool_decide_eq_true in Hr. rewrite Hr; simpl. auto.
Qed.

(** On a full queue left alone, a timed [enqueue] is blocked until its
    timeout has gone by and then returns false. *)
Lemma enqueue_full_quiet item t q sch :
  notFull_pred q = false -> quiet sch = true -> (0 < t)%Z ->
  enqueue item t q sch =
    if (t <=? total_elapsed sch)%Z then Returned false q else Blocked q.
Proof.
  intros Hp Hq Ht. unfold enqueue.
  destruct (Z.ltb_spec 0 t); [|lia].
  rewrite cv_wait_for_quiet by assumption.
  destruct (t <=? total_elapsed sch)%Z; reflexivity.
Qed.

(** Without a timeout it stays blocked. *)
Lemma enqueue_full_quiet_untimed item t q sch :
  notFull_pred q = false -> quiet sch = true -> (t <= 0)%Z ->
  enqueue item t q sch = Blocked q.
Proof.
  intros Hp Hq Ht. unfold enqueue.
  destruct (Z.ltb_spec 0 t); [lia|].
  rewrite cv_wait_quiet by assumption. reflexivity.
Qed.

(** On an empty queue left alone and not shut down, a timed [dequeue] is
    blocked until its timeout has gone by and then returns the empty result. *)
Lemma dequeue_empty_quiet t q sch :
  notEmpty_pred q = false -> quiet sch = true -> (0 < t)%Z ->
  dequeue t q sch =
    if (t <=? total_elapsed sch)%Z then Returned None q else Blocked q.
Proof.
  intros Hp Hq Ht. unfold dequeue.
  destruct (Z.ltb_spec 0 t); [|lia].
  rewrite cv_wait_for_quiet by assumption.
  destruct (t <=? total_elapsed sch)%Z; reflexivity.
Qed.

(** *** Producers and the shutdown flag *)

Lemma cv_wait_step pred q (r : round T) sch :
  pred q = false ->
  cv_wait pred q (r :: sch) = cv_wait pred (apply_qops (others r) q) sch.
Proof. intros H. simpl. rewrite H. reflexivity. Qed.

Lemma apply_qops_shutdown os q : shutdown_ q = true -> shutdown_ (apply_qops os q) = true.
Proof. apply (evolves_apply_qops os q). Qed.

(** Once the flag is set the producers' predicate is false for good, so the
    untimed wait has no way out. *)
Lemma cv_wait_notFull_shutdown q sch :
  shutdown_ q = true ->
  exists q', cv_wait notFull_pred q sch = Stuck q' /\ shutdown_ q' = true.
Proof.
  revert q. induction sch as [|r sch IH]; intros q Hs; simpl;
    rewrite (notFull_pred_shutdown q Hs).
  - eauto.
  - apply IH. now apply apply_qops_shutdown.
Qed.

(** The timed wait leaves through its timeout only. *)
Lemma cv_wait_for_notFull_shutdown t q sch :
  shutdown_ q = true -> (0 < t)%Z ->
  exists q', shutdown_ q' = true
    /\ cv_wait_for notFull_pred t q sch =
         if (t <=? total_elapsed sch)%Z then Woken false q' else Stuck q'.
Proof.
  revert t q. induction sch as [|r sch IH]; intros t q Hs Ht; simpl;
    rewrite (notFull_pred_shutdown q Hs).
  - exists q. destruct (Z.leb_spec t 0); [lia | auto].
  - pose proof (total_elapsed_nonneg sch).
    pose proof (apply_qops_shutdown (others r) q Hs) as Hs'.
    destruct (Z.leb_spec t (Z.of_nat (elapsed r))).
    + exists (apply_qops (others r) q). split; [assumption|].
      rewrite (notFull_pred_shutdown _ Hs').
      destruct (Z.leb_spec t (Z.of_nat (elapsed r) + total_elapsed sch)); [reflexivity | lia].
    + destruct (IH (t - Z.of_nat (elapsed r))%Z _ Hs') as (q' & Hq' & E); [lia|].
      exists q'. split; [assumption|]. rewrite E.
      destruct (Z.leb_spec (t - Z.of_nat (elapsed r)) (total_elapsed sch));
        destruct (Z.leb_spec t (Z.of_nat (elapsed r) + total_elapsed sch));
        (reflexivity || lia).
Qed.

Lemma enqueue_untimed_after_shutdown item t q sch :
  shutdown_ q = true -> (t <= 0)%Z ->
  exists q', enqueue item t q sch = Blocked q' /\ shutdown_ q' = true.
Proof.
  intros Hs Ht. unfold enqueue. destruct (Z.ltb_spec 0 t); [lia|].
  destruct (cv_wait_notFull_shutdown q sch Hs) as (q' & -> & Hq'). eauto.
Qed.

(** With a positive timeout, [enqueue] on a shut-down queue never succeeds
    and has returned false by the time the timeout has gone by. *)
Lemma enqueue_timed_after_shutdown item t q sch :
  shutdown_ q = true -> (0 < t)%Z ->
  exists q', shutdown_ q' = true
    /\ enqueue item t q sch =
         if (t <=? total_elapsed sch)%Z then Returned false q' else Blocked q'.
Proof.
  intros Hs Ht. unfold enqueue. destruct (Z.ltb_spec 0 t); [|lia].
  destruct (cv_wait_for_notFull_shutdown t q sch Hs Ht) as (q' & Hq' & ->).
  exists q'. split; [assumption|].
  destruct (t <=? total_elapsed sch)%Z; reflexivity.
Qed.

Lemma enqueue_after_shutdown_not_true item t q sch :
  shutdown_ q = true -> result_of (enqueue item t q sch) <> Some true.
Proof.
  intros Hs. destruct (Z.ltb_spec 0 t).
  - destruct (enqueue_timed_after_shutdown item t q sch Hs) as (q' & _ & ->); [lia|].
    destruct (t <=? total_elapsed sch)%Z; discriminate.
  - destruct (enqueue_untimed_after_shutdown item t q sch Hs) as (q' & -> & _); [lia|].
    discriminate.
Qed.

(** C2 (as the code has it).  After [shutdown()], an [enqueue] without a
    timeout ([timeoutMs] of -1, the default, or 0) does not return, whatever
    the other threads do and however long it waits; the same holds for a
    producer that was waiting on a full queue when [shutdown()] came.  The
    claim asks for these calls to terminate with false. *)
Theorem enqueue_without_timeout_stuck_after_shutdown
    (q : DataQueue T) (item a : T) (ms : nat) (sch : schedule T) :
  result_of (enqueue item (-1) (shutdown q) sch) = None
  /\ result_of (enqueue item 0 (shutdown q) sch) = None
  /\ result_of (enqueue item (-1) (push_back a (Queue.create 1))
                  (mkRound [OpShutdown] ms :: sch)) = None.
Proof.
  repeat split.
  - destruct (enqueue_untimed_after_shutdown item (-1) (shutdown q) sch)
      as (q' & -> & _); [reflexivity | lia | reflexivity].
  - destruct (enqueue_untimed_after_shutdown item 0 (shutdown q) sch)
      as (q' & -> & _); [reflexivity | lia | reflexivity].
  - set (q1 := push_back a (Queue.create 1)).
    set (r := mkRound [OpShutdown] ms).
    unfold enqueue. change (0 <? -1)%Z with false. cbv iota.
    rewrite (cv_wait_step notFull_pred q1 r sch) by reflexivity.
    destruct (cv_wait_notFull_shutdown (apply_qops (others r) q1) sch)
      as (q' & -> & _); reflexivity.
Qed.

(** *** Draining after shutdown *)

Lemma clear_drained q : queue_ q = [] -> clear q = q.
Proof. destruct q; simpl; intros ->; reflexivity. Qed.

Lemma dequeue_all_drained (more : list (Z * schedule T)) q :
  queue_ q = [] -> shutdown_ q = true ->
  dequeue_all more q = (replicate (length more) None, q).
Proof.
  intros He Hs. induction more as [|[t sch] more IH]; simpl; [reflexivity|].
  rewrite dequeue_now_drained by assumption. rewrite IH. reflexivity.
Qed.

Lemma dequeue_all_shutdown (args more : list (Z * schedule T)) q :
  shutdown_ q = true -> length args = length (queue_ q) ->
  dequeue_all (args ++ more) q =
    (map Some (queue_ q) ++ replicate (length more) None, clear q).
Proof.
  revert q. induction args as [|[t sch] args IH]; intros q Hs Hlen; simpl.
  - destruct (queue_ q) eqn:E; [|discriminate]. simpl.
    rewrite clear_drained by assumption. now apply dequeue_all_drained.
  - destruct (queue_ q) as [|x l] eqn:E; [discriminate|].
    rewrite (dequeue_now_front t q sch x l E).
    simpl in Hlen. injection Hlen as Hlen.
    rewrite IH; simpl; rewrite ?E; simpl; auto.
Qed.

(** C3.  A queue holding i1..ik when [shutdown()] is called: the next k
    [dequeue] calls, whatever their timeouts, return i1, ..., ik in that
    order without waiting, every further one returns the empty result, and
    the queue ends up empty. *)
Theorem dequeue_after_shutdown_drains
    (q : DataQueue T) (args more : list (Z * schedule T)) :
  length args = length (queue_ q) ->
  dequeue_all (args ++ more) (shutdown q) =
    (map Some (queue_ q) ++ replicate (length more) None, clear (shutdown q)).
Proof.
  intros Hlen. now apply (dequeue_all_shutdown args more (shutdown q)).
Qed.

(** C4.  After any sequence of [enqueue], [dequeue], [peek], [clear] and
    [shutdown] calls on a queue created with capacity [cap], under any
    interference from other threads, the queue holds at most [cap] items;
    and if the shutdown flag is set at some point, it is still set after any
    further calls. *)
Theorem queue_length_bounded_shutdown_sticky (cap : nat) (cs1 cs2 : list (call T)) :
  let q1 := run_calls cs1 (Queue.create cap) in
  let q2 := run_calls cs2 q1 in
  (length (queue_ q2) <= cap)%nat
  /\ maxSize_ q2 = cap
  /\ (shutdown_ q1 = true -> shutdown_ q2 = true).
Proof.
  intros q1 q2.
  destruct (run_calls_evolves cs1 (Queue.create cap)) as (Hm1 & Hb1 & _).
  destruct (run_calls_evolves cs2 q1) as (Hm2 & Hb2 & Hs2).
  fold q1 in Hm1, Hb1. fold q2 in Hm2, Hb2, Hs2.
  assert (Hb : bounded q2) by (apply Hb2, Hb1; unfold bounded; simpl; lia).
  unfold bounded in Hb. simpl in Hm1.
  repeat split; [lia | congruence | exact Hs2].
Qed.

(** C5.  A fresh queue of capacity 3: A, B and C go in at once; D with a
    positive timeout, nobody consuming, comes back false when the timeout
    has gone by and leaves the queue as it was; a [dequeue] hands out A; D
    then goes in. *)
Theorem capacity3_scenario (A B C D : T) (ta tb tc t td t' : Z)
    (sa sb sc sch sd sch' : schedule T) :
  (0 < t)%Z -> quiet sch = true -> (t <= total_elapsed sch)%Z ->
  let q0 := Queue.create 3 in
  let q1 := push_back A q0 in
  let q2 := push_back B q1 in
  let q3 := push_back C q2 in
  enqueue A ta q0 sa = Returned true q1
  /\ enqueue B tb q1 sb = Returned true q2
  /\ enqueue C tc q2 sc = Returned true q3
  /\ full q3 = true
  /\ enqueue D t q3 sch = Returned false q3
  /\ dequeue td q3 sd = Returned (Some A) (pop_front q3)
  /\ enqueue D t' (pop_front q3) sch' = Returned true (push_back D (pop_front q3))
  /\ queue_ (push_back D (pop_front q3)) = [B; C; D].
Proof.
  intros Ht Hq Hel q0 q1 q2 q3.
  repeat split; try (apply enqueue_now; reflexivity).
  - rewrite enqueue_full_quiet by (auto; reflexivity).
    destruct (Z.leb_spec t (total_elapsed sch)); [reflexivity | lia].
  - now apply (dequeue_now_front td q3 sd A [B; C]).
Qed.

(** *** What a call can have done to the queue *)

Lemma cv_wait_quiet_state pred q sch :
  quiet sch = true -> waited_state (cv_wait pred q sch) = q.
Proof.
  induction sch as [|r sch IH]; intros Hq; simpl.
  - destruct (pred q); reflexivity.
  - simpl in Hq. apply andb_true_iff in Hq as [Hr Hq].
    apply bool_decide_eq_true in Hr. rewrite Hr; simpl.
    destruct (pred q); simpl; auto.
Qed.

Lemma cv_wait_for_quiet_state pred t q sch :
  quiet sch = true -> waited_state (cv_wait_for pred t q sch) = q.
Proof.
  revert t. induction sch as [|r sch IH]; intros t Hq; simpl.
  - destruct (pred q); reflexivity.
  - simpl in Hq. apply andb_true_iff in Hq as [Hr Hq].
    apply bool_decide_eq_true in Hr. rewrite Hr; simpl.
    destruct (pred q); simpl; auto.
    destruct (t <=? Z.of_nat (elapsed r))%Z; simpl; auto.
Qed.

Lemma wait_of_quiet_state pred t q sch :
  quiet sch = true -> waited_state (wait_of pred t q sch) = q.
Proof.
  unfold wait_of. destruct (0 <? t)%Z;
    [apply cv_wait_for_quiet_state | apply cv_wait_quiet_state].
Qed.

Lemma enqueue_quiet_state item t q sch :
  quiet sch = true ->
  state_of (enqueue item t q sch) = q
  \/ state_of (enqueue item t q sch) = push_back item q.
Proof.
  intros Hq. unfold enqueue. fold (wait_of notFull_pred t q sch).
  pose proof (wait_of_quiet_state notFull_pred t q sch Hq) as E.
  destruct (wait_of notFull_pred t q sch) as [[|] q'|q']; simpl in *; subst q'; auto.
  destruct (shutdown_ q); simpl; auto.
Qed.

Lemma dequeue_quiet_state t q sch :
  quiet sch = true ->
  state_of (dequeue t q sch) = q \/ state_of (dequeue t q sch) = pop_front q.
Proof.
  intros Hq. unfold dequeue. fold (wait_of notEmpty_pred t q sch).
  pose proof (wait_of_quiet_state notEmpty_pred t q sch Hq) as E.
  destruct (wait_of notEmpty_pred t q sch) as [[|] q'|q']; simpl in *; subst q'; auto.
  destruct (queue_ q); simpl; auto.
Qed.

(** On a shut-down queue nothing is added any more. *)
Lemma apply_qop_shutdown_drops o q :
  shutdown_ q = true -> exists n, queue_ (apply_qop o q) = drop n (queue_ q).
Proof.
  intros Hs. destruct o; simpl.
  - rewrite (notFull_pred_shutdown q Hs). now exists 0%nat.
  - exists 1%nat. now destruct (queue_ q).
  - exists (length (queue_ q)). now rewrite drop_all.
  - now exists 0%nat.
Qed.

Lemma apply_qops_shutdown_drops os q :
  shutdown_ q = true -> exists n, queue_ (apply_qops os q) = drop n (queue_ q).
Proof.
  revert q. induction os as [|o os IH]; intros q Hs; simpl.
  - now exists 0%nat.
  - destruct (apply_qop_shutdown_drops o q Hs) as [n Hn].
    destruct (IH (apply_qop o q)) as [m Hm]; [now apply (evolves_apply_qop o q)|].
    exists (n + m)%nat. rewrite Hm, Hn. apply drop_drop.
Qed.

Lemma cv_wait_shutdown_drops pred q sch :
  shutdown_ q = true ->
  exists n, queue_ (waited_state (cv_wait pred q sch)) = drop n (queue_ q).
Proof.
  revert q. induction sch as [|r sch IH]; intros q Hs; simpl.
  - exists 0%nat. now destruct (pred q).
  - destruct (pred q); simpl; [now exists 0%nat|].
    destruct (apply_qops_shutdown_drops (others r) q Hs) as [n Hn].
    destruct (IH (apply_qops (others r) q)) as [m Hm];
      [now apply apply_qops_shutdown|].
    exists (n + m)%nat. rewrite Hm, Hn. apply drop_drop.
Qed.

Lemma cv_wait_for_shutdown_drops pred t q sch :
  shutdown_ q = true ->
  exists n, queue_ (waited_state (cv_wait_for pred t q sch)) = drop n (queue_ q).
Proof.
  revert t q. induction sch as [|r sch IH]; intros t q Hs; simpl.
  - exists 0%nat. now destruct (pred q).
  - destruct (pred q); simpl; [now exists 0%nat|].
    destruct (apply_qops_shutdown_drops (others r) q Hs) as [n Hn].
    destruct (t <=? Z.of_nat (elapsed r))%Z; simpl; [eauto|].
    destruct (IH (t - Z.of_nat (elapsed r))%Z (apply_qops (others r) q)) as [m Hm];
      [now apply apply_qops_shutdown|].
    exists (n + m)%nat. rewrite Hm, Hn. apply drop_drop.
Qed.

Lemma enqueue_shutdown_drops item t q sch :
  shutdown_ q = true ->
  exists n, queue_ (state_of (enqueue item t q sch)) = drop n (queue_ q).
Proof.
  intros Hs. unfold enqueue. fold (wait_of notFull_pred t q sch).
  assert (Hd : exists n, queue_ (waited_state (wait_of notFull_pred t q sch))
                         = drop n (queue_ q)).
  { unfold wait_of. destruct (0 <? t)%Z;
      [now apply cv_wait_for_shutdown_drops | now apply cv_wait_shutdown_drops]. }
  pose proof (wait_of_evolves notFull_pred t q sch) as (_ & _ & Hs').
  specialize (Hs' Hs).
  destruct (wait_of notFull_pred t q sch) as [[|] q'|q']; simpl in *; auto.
  rewrite Hs'. exact Hd.
Qed.

End QueueFacts.

(** ** Properties of the processors and of the factory *)

(** C6.  A default-constructed [StatisticalProcessor<int>] fed 10, 20, 30 in
    turn returns 10, 15, 20 and is left with a total of 60 over 3 items. *)
Theorem running_average_10_20_30 :
  process_all (T := Z) StatisticalProcessor_new [10; 20; 30]%Z
  = (StatisticalProcessor 60%Z 3%Z, [10; 15; 20]%Z).
Proof. vm_compute. reflexivity. Qed.

Lemma known_cases (type : ProcessorType) :
  known type = true <->
  type = NUMERIC \/ type = STATISTICAL \/ type = FILTERING \/ type = AMPLIFICATION.
Proof.
  unfold known. rewrite !orb_true_iff, !Z.eqb_eq. tauto.
Qed.

Lemma createProcessor_known {T : Type} `{Numeric T} type params :
  known type = true -> exists p : Processor T, createProcessor type params = inl p.
Proof.
  intros Hk. unfold createProcessor.
  destruct (type =? NUMERIC)%Z eqn:E0; [eauto|].
  destruct (type =? STATISTICAL)%Z eqn:E1; [eauto|].
  destruct (type =? FILTERING)%Z eqn:E2; [eauto|].
  destruct (type =? AMPLIFICATION)%Z eqn:E3; [eauto|].
  unfold known in Hk. rewrite E0, E1, E2, E3 in Hk. discriminate.
Qed.

Lemma createProcessor_unknown {T : Type} `{Numeric T} type params :
  known type = false ->
  createProcessor (T := T) type params = inr (invalid_argument "Unknown processor type").
Proof.
  unfold known. rewrite !orb_false_iff. intros [[[E0 E1] E2] E3].
  unfold createProcessor. rewrite E0, E1, E2, E3. reflexivity.
Qed.

(** C9.  [createProcessor] throws [std::invalid_argument] exactly for the
    identifiers that are unknown or not supported for the item type.  The
    string factory builds a processor for NUMERIC alone and rejects
    STATISTICAL, FILTERING and AMPLIFICATION as unsupported; the factory of
    a numeric item type builds a processor for each of the four. *)
Theorem createProcessor_invalid_argument_iff :
  (forall type params,
      (exists what, createProcessor_string type params = inr (invalid_argument what))
      <-> (known type = false
           \/ type = STATISTICAL \/ type = FILTERING \/ type = AMPLIFICATION))
  /\ (forall params,
        (exists p, createProcessor_string NUMERIC params = inl p)
        /\ createProcessor_string STATISTICAL params
           = inr (invalid_argument "This processor type is not supported for strings")
        /\ createProcessor_string FILTERING params
           = inr (invalid_argument "This processor type is not supported for strings")
        /\ createProcessor_string AMPLIFICATION params
           = inr (invalid_argument "This processor type is not supported for strings"))
  /\ (forall (T : Type) (N : Numeric T) type params,
        (exists what, createProcessor (T := T) type params = inr (invalid_argument what))
        <-> known type = false)
  /\ (forall (T : Type) (N : Numeric T) params,
        (exists p, createProcessor (T := T) NUMERIC params = inl p)
        /\ (exists p, createProcessor (T := T) STATISTICAL params = inl p)
        /\ (exists p, createProcessor (T := T) FILTERING params = inl p)
        /\ (exists p, createProcessor (T := T) AMPLIFICATION params = inl p)).
Proof.
  split; [|split; [|split]].
  - intros type params. unfold createProcessor_string, known.
    destruct (Z.eqb_spec type NUMERIC) as [->|Hn]; simpl.
    + split; [intros [what Hw]; discriminate|].
      intros [Hk|[Hk|[Hk|Hk]]]; discriminate.
    + destruct ((type =? STATISTICAL)%Z || (type =? FILTERING)%Z
                || (type =? AMPLIFICATION)%Z) eqn:E.
      * split; [|eauto]. intros _. right.
        rewrite !orb_true_iff, !Z.eqb_eq in E. tauto.
      * split; [auto|]. eauto.
  - intros params. repeat split. unfold createProcessor_string; simpl. eauto.
  - intros T N type params. split.
    + intros [what Hw]. destruct (known type) eqn:Hk; [|reflexivity].
      destruct (createProcessor_known (T := T) type params Hk) as [p Hp].
      congruence.
    + intros Hk. rewrite (createProcessor_unknown type params Hk). eauto.
  - intros T N params. repeat split; apply createProcessor_known; reflexivity.
Qed.

(** ** Properties of the pipeline *)

Section SystemFacts.
Context {T P : Type} (process : P -> T -> P * option T).
Implicit Types (s : ProcessingSystem T P) (q : DataQueue T) (sch : schedule T).

(** *** The output queue is never shut down *)

Lemma apply_qops_output_flag os q :
  forallb output_op os = true -> shutdown_ (apply_qops os q) = shutdown_ q.
Proof.
  revert q. induction os as [|o os IH]; intros q Ho; simpl; [reflexivity|].
  simpl in Ho. apply andb_true_iff in Ho as [Ho Hos].
  rewrite IH by assumption.
  destruct o; try discriminate; simpl; [|reflexivity].
  destruct (notFull_pred q); reflexivity.
Qed.

Lemma cv_wait_output_flag pred q sch :
  output_schedule sch = true ->
  shutdown_ (waited_state (cv_wait pred q sch)) = shutdown_ q.
Proof.
  revert q. induction sch as [|r sch IH]; intros q Ho; simpl.
  - destruct (pred q); reflexivity.
  - simpl in Ho. apply andb_true_iff in Ho as [Hr Ho].
    destruct (pred q); simpl; [reflexivity|].
    rewrite IH by assumption. now apply apply_qops_output_flag.
Qed.

Lemma cv_wait_for_output_flag pred t q sch :
  output_schedule sch = true ->
  shutdown_ (waited_state (cv_wait_for pred t q sch)) = shutdown_ q.
Proof.
  revert t q. induction sch as [|r sch IH]; intros t q Ho; simpl.
  - destruct (pred q); reflexivity.
  - simpl in Ho. apply andb_true_iff in Ho as [Hr Ho].
    destruct (pred q); simpl; [reflexivity|].
    destruct (t <=? Z.of_nat (elapsed r))%Z; simpl.
    + now apply apply_qops_output_flag.
    + rewrite IH by assumption. now apply apply_qops_output_flag.
Qed.

Lemma dequeue_output_flag t q sch :
  output_schedule sch = true ->
  shutdown_ (state_of (dequeue t q sch)) = shutdown_ q.
Proof.
  intros Ho. unfold dequeue. fold (wait_of notEmpty_pred t q sch).
  assert (E : shutdown_ (waited_state (wait_of notEmpty_pred t q sch)) = shutdown_ q).
  { unfold wait_of. destruct (0 <? t)%Z;
      [now apply cv_wait_for_output_flag | now apply cv_wait_output_flag]. }
  destruct (wait_of notEmpty_pred t q sch) as [[|] q'|q']; simpl in *; auto.
  destruct (queue_ q'); simpl; auto.
Qed.

Lemma quiet_output_schedule sch : quiet sch = true -> output_schedule sch = true.
Proof.
  induction sch as [|r sch IH]; simpl; [reflexivity|].
  intros [Hr Hq]%andb_true_iff. apply bool_decide_eq_true in Hr.
  rewrite Hr; simpl. auto.
Qed.

(** *** What a worker's turn leaves alone *)

Lemma worker_enqueue_output (R : DataQueue T -> DataQueue T -> Prop) :
  (forall q, R q q) -> (forall q item, R q (push_back item q)) ->
  forall i res t sch left s,
    quiet sch = true ->
    R (outputQueue_ s) (outputQueue_ (worker_enqueue i res t sch left s)).
Proof.
  intros Hrefl Hpush i res t sch left s Hq. unfold worker_enqueue.
  pose proof (enqueue_quiet_state res t (outputQueue_ s) sch Hq) as E.
  destruct (enqueue res t (outputQueue_ s) sch) as [[|] q|q];
    simpl in *; destruct E as [-> | ->]; auto.
Qed.

Lemma worker_dequeue_output i t sch left s :
  outputQueue_ (worker_dequeue i t sch left s) = outputQueue_ s.
Proof.
  unfold worker_dequeue.
  destruct (dequeue t (inputQueue_ s) sch) as [[x|] q|q]; reflexivity.
Qed.

Lemma run_worker_output (R : DataQueue T -> DataQueue T -> Prop) :
  (forall q, R q q) -> (forall q item, R q (push_back item q)) ->
  forall i ms s, R (outputQueue_ s) (outputQueue_ (run_worker process i ms s)).
Proof.
  intros Hrefl Hpush i ms s. unfold run_worker.
  destruct (workers_ s !! i) as [[| t | item | res t |]|]; auto.
  - destruct (isRunning_ s || negb (empty (inputQueue_ s))); simpl; auto.
    rewrite worker_dequeue_output. auto.
  - rewrite worker_dequeue_output. auto.
  - destruct (mutex_held s); auto.
    destruct (processor_ s) as [p|]; simpl; auto.
    destruct (process p item) as [p' [res|]]; simpl; auto.
    apply (worker_enqueue_output R Hrefl Hpush i res 500 [] 500
             (set_processor (Some p') s)). reflexivity.
  - now apply worker_enqueue_output.
Qed.

Lemma worker_enqueue_input i res t sch left s :
  inputQueue_ (worker_enqueue i res t sch left s) = inputQueue_ s.
Proof.
  unfold worker_enqueue.
  destruct (enqueue res t (outputQueue_ s) sch) as [[|] q|q]; reflexivity.
Qed.

Lemma worker_dequeue_input (R : DataQueue T -> DataQueue T -> Prop) :
  (forall q, R q q) -> (forall q, R q (pop_front q)) ->
  forall i t sch left s,
    quiet sch = true ->
    R (inputQueue_ s) (inputQueue_ (worker_dequeue i t sch left s)).
Proof.
  intros Hrefl Hpop i t sch left s Hq. unfold worker_dequeue.
  pose proof (dequeue_quiet_state t (inputQueue_ s) sch Hq) as E.
  destruct (dequeue t (inputQueue_ s) sch) as [[x|] q|q];
    simpl in *; destruct E as [-> | ->]; auto.
Qed.

Lemma run_worker_input (R : DataQueue T -> DataQueue T -> Prop) :
  (forall q, R q q) -> (forall q, R q (pop_front q)) ->
  forall i ms s, R (inputQueue_ s) (inputQueue_ (run_worker process i ms s)).
Proof.
  intros Hrefl Hpop i ms s. unfold run_worker.
  destruct (workers_ s !! i) as [[| t | item | res t |]|]; auto.
  - destruct (isRunning_ s || negb (empty (inputQueue_ s))); simpl; auto.
    now apply worker_dequeue_input.
  - now apply worker_dequeue_input.
  - destruct (mutex_held s); auto.
    destruct (processor_ s) as [p|]; simpl; auto.
    destruct (process p item) as [p' [res|]]; simpl; auto.
    rewrite worker_enqueue_input. simpl. auto.
  - rewrite worker_enqueue_input. auto.
Qed.

Lemma same_setup_refl s : same_setup s s.
Proof. unfold same_setup; tauto. Qed.

Lemma same_setup_trans s1 s2 s3 :
  same_setup s1 s2 -> same_setup s2 s3 -> same_setup s1 s3.
Proof.
  intros (Hr1 & Hn1 & Hp1) (Hr2 & Hn2 & Hp2).
  repeat split; try congruence; tauto.
Qed.

Lemma worker_dequeue_setup i t sch left s :
  same_setup s (worker_dequeue i t sch left s).
Proof.
  unfold worker_dequeue.
  destruct (dequeue t (inputQueue_ s) sch) as [[x|] q|q]; (unfold same_setup; simpl; tauto).
Qed.

Lemma worker_enqueue_setup i res t sch left s :
  same_setup s (worker_enqueue i res t sch left s).
Proof.
  unfold worker_enqueue.
  destruct (enqueue res t (outputQueue_ s) sch) as [[|] q|q]; (unfold same_setup; simpl; tauto).
Qed.

Lemma run_worker_setup i ms s : same_setup s (run_worker process i ms s).
Proof.
  unfold run_worker.
  destruct (workers_ s !! i) as [[| t | item | res t |]|] eqn:Ew;
    try (unfold same_setup; simpl; tauto).
  - destruct (isRunning_ s || negb (empty (inputQueue_ s)));
      [apply worker_dequeue_setup | (unfold same_setup; simpl; tauto)].
  - apply worker_dequeue_setup.
  - destruct (mutex_held s); [(unfold same_setup; simpl; tauto)|].
    destruct (processor_ s) as [p|] eqn:Ep; [|(unfold same_setup; simpl; tauto)].
    assert (Hset : forall p', same_setup s (set_processor (Some p') s)).
    { intros p'. unfold same_setup; simpl. rewrite Ep.
      repeat split; eauto. }
    destruct (process p item) as [p' [res|]].
    + eapply same_setup_trans; [apply (Hset p') | apply worker_enqueue_setup].
    + apply (Hset p').
  - apply worker_enqueue_setup.
Qed.

Lemma run_event_setup e s : same_setup s (run_event process e s).
Proof.
  destruct e; simpl; [apply run_worker_setup | unfold same_setup; simpl; tauto].
Qed.

Lemma run_events_setup es s : same_setup s (run_events process es s).
Proof.
  revert s. induction es as [|e es IH]; intros s; simpl.
  - apply same_setup_refl.
  - eapply same_setup_trans; [apply run_event_setup | apply IH].
Qed.

Lemma run_event_output_flag e s :
  shutdown_ (outputQueue_ (run_event process e s)) = shutdown_ (outputQueue_ s).
Proof.
  destruct e; simpl; [|reflexivity].
  apply (run_worker_output (fun q q' => shutdown_ q' = shutdown_ q)); reflexivity.
Qed.

Lemma run_events_output_flag es s :
  shutdown_ (outputQueue_ (run_events process es s)) = shutdown_ (outputQueue_ s).
Proof.
  revert s. induction es as [|e es IH]; intros s; simpl; [reflexivity|].
  rewrite IH. apply run_event_output_flag.
Qed.

Lemma run_event_input_flag e s :
  shutdown_ (inputQueue_ (run_event process e s)) = shutdown_ (inputQueue_ s).
Proof.
  destruct e; simpl; [|reflexivity].
  apply (run_worker_input (fun q q' => shutdown_ q' = shutdown_ q)); reflexivity.
Qed.

Lemma run_events_input_flag es s :
  shutdown_ (inputQueue_ (run_events process es s)) = shutdown_ (inputQueue_ s).
Proof.
  revert s. induction es as [|e es IH]; intros s; simpl; [reflexivity|].
  rewrite IH. apply run_event_input_flag.
Qed.

(** *** Invariants of the reachable states *)

Lemma getResults_loop_frame count t s schs results :
  forallb output_schedule schs = true ->
  shutdown_ (outputQueue_ (system_of (getResults_loop count t s schs results)))
    = shutdown_ (outputQueue_ s)
  /\ processor_ (system_of (getResults_loop count t s schs results)) = processor_ s
  /\ isRunning_ (system_of (getResults_loop count t s schs results)) = isRunning_ s
  /\ workers_ (system_of (getResults_loop count t s schs results)) = workers_ s.
Proof.
  revert s schs results. induction count as [|count IH]; intros s schs results Ho; simpl.
  - auto.
  - assert (Hh : output_schedule (hd [] schs) = true)
      by (destruct schs; simpl in *; [reflexivity | now apply andb_true_iff in Ho]).
    assert (Ht : forallb output_schedule (tl schs) = true)
      by (destruct schs; simpl in *; [reflexivity | now apply andb_true_iff in Ho]).
    pose proof (dequeue_output_flag t (outputQueue_ s) (hd [] schs) Hh) as E.
    destruct (dequeue t (outputQueue_ s) (hd [] schs)) as [r q|q]; simpl in *.
    + destruct (IH (set_outputQueue q s) (tl schs)
                  (match r with Some v => results ++ [v] | None => results end) Ht)
        as (H1 & H2 & H3 & H4).
      simpl in *. repeat split; congruence.
    + auto.
Qed.

Lemma is_Some_transfer (a b : option P) : (is_Some a <-> is_Some b) -> b = None -> a = None.
Proof.
  intros H ->. destruct a; [|reflexivity].
  exfalso. eapply is_Some_None. apply H. eauto.
Qed.

(** In every reachable state the output queue is open, and a pipeline
    without a processor is stopped and has no workers. *)
Lemma reachable_invariant s :
  reachable process s ->
  shutdown_ (outputQueue_ s) = false
  /\ (processor_ s = None -> isRunning_ s = false /\ workers_ s = []).
Proof.
  induction 1 as [n c | s Hr [IHo IHp] | s join Hr [IHo IHp] | s p Hr [IHo IHp]
                 | s data t sch Hr [IHo IHp] | s t sch Hr [IHo IHp] Hs
                 | s count t schs Hr [IHo IHp] Hs | s e Hr [IHo IHp]].
  - simpl. auto.
  - unfold start. destruct (isRunning_ s) eqn:Er;
      [split; [exact IHo | intros Hn; destruct (IHp Hn); discriminate]|].
    simpl. destruct (processor_ s) eqn:Ep; simpl; rewrite ?Ep.
    + split; [assumption | discriminate].
    + split; [assumption|]. intros _. split; [reflexivity | now apply IHp].
  - unfold stop. destruct (isRunning_ s) eqn:Er; simpl;
      [|split; [exact IHo | intros Hn; rewrite Er; now apply IHp]].
    set (s1 := set_inputQueue (shutdown (inputQueue_ s)) (set_isRunning false s)).
    assert (Ho : shutdown_ (outputQueue_ (run_events process join s1)) = false)
      by (rewrite run_events_output_flag; exact IHo).
    assert (Hp : processor_ (run_events process join s1) = None -> False).
    { intros Hn. destruct (run_events_setup join s1) as (_ & _ & Hsome).
      apply (is_Some_transfer _ _ Hsome) in Hn. simpl in Hn.
      destruct (IHp Hn) as [Hf _]. congruence. }
    destruct (forallb is_finished (workers_ (run_events process join s1)));
      simpl; (split; [exact Ho | intros Hn; destruct (Hp Hn)]).
  - simpl. split; [assumption | discriminate].
  - unfold addData. destruct (isRunning_ s) eqn:Er; simpl;
      [|split; [exact IHo | intros Hn; rewrite Er; now apply IHp]].
    destruct (enqueue data t (inputQueue_ s) sch) as [b q|q]; simpl;
      (split; [exact IHo | intros Hn; destruct (IHp Hn); discriminate]).
  - unfold getResult.
    pose proof (dequeue_output_flag t (outputQueue_ s) sch Hs) as E.
    destruct (dequeue t (outputQueue_ s) sch) as [r q|q]; simpl in *;
      (split; [congruence | exact IHp]).
  - unfold getResults.
    destruct (getResults_loop_frame count t s schs [] Hs) as (H1 & H2 & H3 & H4).
    rewrite H1, H2, H3, H4. auto.
  - split; [rewrite run_event_output_flag; exact IHo|].
    intros Hn. destruct (run_event_setup e s) as (Hrun & _ & Hsome).
    apply (is_Some_transfer _ _ Hsome) in Hn.
    destruct (IHp Hn) as [Hf Hw].
    destruct e as [i ms|]; simpl.
    + unfold run_worker. rewrite Hw. simpl. rewrite Hw. auto.
    + auto.
Qed.

(** *** start, addData *)

(** C8.  [start()] on a pipeline that has no processor changes nothing: the
    pipeline object is as before, not running and without worker threads. *)
Theorem start_without_processor_is_noop s :
  reachable process s -> processor_ s = None ->
  start s = s /\ isRunning_ (start s) = false /\ workers_ (start s) = [].
Proof.
  intros Hr Hn. destruct (reachable_invariant s Hr) as [_ Hidle].
  destruct (Hidle Hn) as [Hf Hw].
  assert (E : start s = s).
  { unfold start. rewrite Hf. simpl. rewrite Hn.
    destruct s; simpl in *; subst; reflexivity. }
  rewrite E. auto.
Qed.

(** C7.  [addData] on a pipeline that is not running returns false and
    leaves the pipeline object as it is; on a running pipeline its result is
    that of [inputQueue_.enqueue(data, timeoutMs)], and the input queue is
    the only member touched. *)
Theorem addData_gate s (data : T) (t : Z) sch :
  (isRunning_ s = false -> addData data t s sch = Done false s)
  /\ (isRunning_ s = true ->
      addData data t s sch = forward_enqueue (enqueue data t (inputQueue_ s) sch) s
      /\ value_of (addData data t s sch)
         = result_of (enqueue data t (inputQueue_ s) sch)
      /\ system_of (addData data t s sch)
         = set_inputQueue (state_of (enqueue data t (inputQueue_ s) sch)) s).
Proof.
  unfold addData. split; intros ->; simpl; [reflexivity|].
  destruct (enqueue data t (inputQueue_ s) sch); simpl; auto.
Qed.

(** *** stop, and what comes after it *)

Lemma set_outputQueue_same s : set_outputQueue (outputQueue_ s) s = s.
Proof. destruct s; reflexivity. Qed.

Lemma run_event_output_grows e s :
  is_consume e = false ->
  exists new,
    queue_ (outputQueue_ (run_event process e s)) = queue_ (outputQueue_ s) ++ new.
Proof.
  destruct e as [i ms|]; [intros _ | discriminate]. simpl.
  apply (run_worker_output
           (fun q q' => exists new, queue_ q' = queue_ q ++ new)).
  - intros q. exists []. now rewrite app_nil_r.
  - intros q item. now exists [item].
Qed.

Lemma run_events_output_grows es s :
  forallb (fun e => negb (is_consume e)) es = true ->
  exists new,
    queue_ (outputQueue_ (run_events process es s)) = queue_ (outputQueue_ s) ++ new.
Proof.
  revert s. induction es as [|e es IH]; intros s Hc; simpl.
  - exists []. now rewrite app_nil_r.
  - simpl in Hc. apply andb_true_iff in Hc as [He Hc].
    apply negb_true_iff in He.
    destruct (run_event_output_grows e s He) as [new1 H1].
    destruct (IH (run_event process e s) Hc) as [new2 H2].
    exists (new1 ++ new2). rewrite H2, H1. now rewrite app_assoc.
Qed.

(** What [stop()] has done when it returns from a running pipeline. *)
Lemma stop_done s s' join :
  isRunning_ s = true -> stop process s join = Done tt s' ->
  let s2 := run_events process join
              (set_inputQueue (shutdown (inputQueue_ s)) (set_isRunning false s)) in
  s' = set_workers [] s2
  /\ isRunning_ s' = false
  /\ numWorkers_ s' = numWorkers_ s
  /\ workers_ s' = []
  /\ shutdown_ (inputQueue_ s') = true
  /\ shutdown_ (outputQueue_ s') = shutdown_ (outputQueue_ s).
Proof.
  intros Hr Hstop s2. unfold stop in Hstop. rewrite Hr in Hstop. simpl in Hstop.
  fold s2 in Hstop.
  destruct (forallb is_finished (workers_ s2)); [|discriminate].
  injection Hstop as <-.
  destruct (run_events_setup join
              (set_inputQueue (shutdown (inputQueue_ s)) (set_isRunning false s)))
    as (Hrun & Hnum & _).
  fold s2 in Hrun, Hnum. simpl in *.
  repeat split; auto.
  - unfold s2. now rewrite run_events_input_flag.
  - unfold s2. now rewrite run_events_output_flag.
Qed.

(** C1 (as the code has it).  After a [stop()] that found the pipeline
    running has returned, [start()] with a processor installed sets the
    running flag and creates [numWorkers_] worker threads again, but the
    input queue is still shut down: [addData] never returns true and adds
    nothing to the input queue, and with a positive timeout it has returned
    false once the timeout has gone by. *)
Theorem restart_after_stop_rejects_data s s' join (p : P) :
  isRunning_ s = true -> stop process s join = Done tt s' ->
  processor_ s' = Some p ->
  isRunning_ (start s') = true
  /\ workers_ (start s') = replicate (numWorkers_ s) AtLoop
  /\ shutdown_ (inputQueue_ (start s')) = true
  /\ forall (item : T) (t : Z) sch,
       value_of (addData item t (start s') sch) <> Some true
       /\ (exists n,
              queue_ (inputQueue_ (system_of (addData item t (start s') sch)))
              = drop n (queue_ (inputQueue_ (start s'))))
       /\ ((0 < t)%Z -> (t <= total_elapsed sch)%Z ->
           value_of (addData item t (start s') sch) = Some false).
Proof.
  intros Hr Hstop Hp.
  destruct (stop_done s s' join Hr Hstop) as (_ & Hrun & Hnum & Hw & Hin & _).
  assert (E : start s'
              = set_workers (replicate (numWorkers_ s) AtLoop) (set_isRunning true s')).
  { unfold start. rewrite Hrun. simpl. rewrite Hp, Hw, Hnum. reflexivity. }
  rewrite E. simpl. repeat split; auto.
  - unfold addData; simpl.
    pose proof (enqueue_after_shutdown_not_true item t (inputQueue_ s') sch Hin) as Hne.
    destruct (enqueue item t (inputQueue_ s') sch); simpl in *; congruence.
  - unfold addData; simpl.
    destruct (enqueue_shutdown_drops item t (inputQueue_ s') sch Hin) as [n Hn].
    exists n. destruct (enqueue item t (inputQueue_ s') sch); simpl in *; exact Hn.
  - intros Ht Hel. unfold addData; simpl.
    destruct (enqueue_timed_after_shutdown item t (inputQueue_ s') sch Hin Ht)
      as (q' & _ & ->).
    destruct (Z.leb_spec t (total_elapsed sch)); [reflexivity | lia].
Qed.

Lemma getResults_loop_all t s schs results :
  getResults_loop (length (queue_ (outputQueue_ s))) t s schs results
  = Done (results ++ queue_ (outputQueue_ s))
         (set_outputQueue (clear (outputQueue_ s)) s).
Proof.
  remember (queue_ (outputQueue_ s)) as l eqn:El.
  revert s schs results El.
  induction l as [|x l IH]; intros s schs results El; simpl.
  - rewrite app_nil_r. f_equal.
    rewrite clear_drained by auto. now rewrite set_outputQueue_same.
  - rewrite (dequeue_now_front t (outputQueue_ s) (hd [] schs) x l) by auto.
    rewrite (IH (set_outputQueue (pop_front (outputQueue_ s)) s)); simpl.
    + rewrite <- app_assoc. reflexivity.
    + rewrite <- El. reflexivity.
Qed.

(** C10.  [stop()] leaves the shutdown flag of the output queue alone (and
    sets that of the input queue).  After it has returned, the results that
    were on the output queue are still there, in front of any the workers
    added while finishing; [getResults] and [getResult] hand out what the
    output queue holds without waiting; and on an empty output queue, with
    nobody adding to it, [getResult] with a positive timeout is blocked
    until the timeout has gone by and then returns the empty result. *)
Theorem stop_leaves_output_queue_open s s' join :
  reachable process s -> stop process s join = Done tt s' ->
  shutdown_ (outputQueue_ s') = shutdown_ (outputQueue_ s)
  /\ shutdown_ (outputQueue_ s') = false
  /\ (isRunning_ s = true -> shutdown_ (inputQueue_ s') = true)
  /\ (forallb (fun e => negb (is_consume e)) join = true ->
      exists new, queue_ (outputQueue_ s') = queue_ (outputQueue_ s) ++ new)
  /\ (forall t schs,
        getResults (length (queue_ (outputQueue_ s'))) t s' schs
        = Done (queue_ (outputQueue_ s'))
               (set_outputQueue (clear (outputQueue_ s')) s'))
  /\ (forall t sch r rest,
        queue_ (outputQueue_ s') = r :: rest ->
        getResult t s' sch
        = Done (Some r) (set_outputQueue (pop_front (outputQueue_ s')) s'))
  /\ (forall t sch,
        queue_ (outputQueue_ s') = [] -> (0 < t)%Z -> quiet sch = true ->
        getResult t s' sch
        = if (t <=? total_elapsed sch)%Z then Done None s' else Waiting s').
Proof.
  intros Hreach Hstop.
  pose proof (reach_stop process s join Hreach) as Hreach'.
  rewrite Hstop in Hreach'. simpl in Hreach'.
  destruct (reachable_invariant s' Hreach') as [Hopen _].
  assert (Hflag : shutdown_ (outputQueue_ s') = shutdown_ (outputQueue_ s)).
  { destruct (reachable_invariant s Hreach) as [Ho _]. congruence. }
  split; [exact Hflag|]. split; [exact Hopen|].
  split; [|split; [|split; [|split]]].
  - intros Hr. now destruct (stop_done s s' join Hr Hstop) as (_ & _ & _ & _ & Hin & _).
  - intros Hc. destruct (isRunning_ s) eqn:Hr.
    + destruct (stop_done s s' join Hr Hstop) as (-> & _).
      simpl. destruct (run_events_output_grows join
                         (set_inputQueue (shutdown (inputQueue_ s))
                            (set_isRunning false s)) Hc) as [new Hn].
      exists new. exact Hn.
    + unfold stop in Hstop. rewrite Hr in Hstop. simpl in Hstop.
      injection Hstop as <-. exists []. now rewrite app_nil_r.
  - intros t schs. unfold getResults. now rewrite getResults_loop_all.
  - intros t sch r rest Hq. unfold getResult.
    now rewrite (dequeue_now_front t (outputQueue_ s') sch r rest Hq).
  - intros t sch Hq Ht Hquiet. unfold getResult.
    rewrite dequeue_empty_quiet; auto.
    + destruct (t <=? total_elapsed sch)%Z; now rewrite set_outputQueue_same.
    + apply notEmpty_pred_false. auto.
Qed.

Lemma reachable_run_events es s :
  reachable process s -> reachable process (run_events process es s).
Proof.
  revert s. induction es as [|e es IH]; intros s Hr; simpl; [exact Hr|].
  apply IH. now apply reach_event.
Qed.

End SystemFacts.

(** ** The properties at work on concrete pipelines and queues *)

Lemma avg_worked_reachable : reachable process_int avg_worked.
Proof.
  unfold avg_worked, avg_loaded, avg_running.
  apply reachable_run_events.
  do 2 apply reach_addData.
  apply reach_start, reach_setProcessor, reach_create.
Qed.

Lemma dequeue_after_shutdown_drains_witness :
  length dequeue_args_a = length (queue_ queue_12)
  /\ dequeue_all (dequeue_args_a ++ dequeue_args_b) (shutdown queue_12)
     = (map Some (queue_ queue_12) ++ replicate (length dequeue_args_b) None,
        clear (shutdown queue_12)).
Proof.
  split; [reflexivity|].
  apply (dequeue_after_shutdown_drains queue_12 dequeue_args_a dequeue_args_b).
  reflexivity.
Defined.

Lemma queue_length_bounded_shutdown_sticky_witness :
  shutdown_ (run_calls calls_a (Queue.create 2)) = true
  /\ shutdown_ (run_calls calls_b (run_calls calls_a (Queue.create 2))) = true.
Proof.
  split; [reflexivity|].
  apply (queue_length_bounded_shutdown_sticky 2 calls_a calls_b).
  reflexivity.
Defined.

Lemma capacity3_scenario_witness :
  (0 < 50)%Z /\ quiet fifty_ms_alone = true
  /\ (50 <= total_elapsed fifty_ms_alone)%Z
  /\ enqueue 4%Z 50 queue_123 fifty_ms_alone = Returned false queue_123.
Proof.
  split; [lia|]. split; [reflexivity|]. split; [vm_compute; discriminate|].
  apply (capacity3_scenario 1%Z 2%Z 3%Z 4%Z (-1) (-1) (-1) 50 (-1) (-1)
           [] [] [] fifty_ms_alone [] []);
    [lia | reflexivity | vm_compute; discriminate].
Defined.

Lemma addData_gate_witness :
  (isRunning_ demo_fresh = false
   /\ addData 7%Z 1000 demo_fresh [] = Done false demo_fresh)
  /\ (isRunning_ demo_running = true
      /\ value_of (addData 7%Z 1000 demo_running [])
         = result_of (enqueue 7%Z 1000 (inputQueue_ demo_running) [])).
Proof.
  split; (split; [reflexivity|]).
  - apply (addData_gate demo_fresh 7%Z 1000 []). reflexivity.
  - apply (addData_gate demo_running 7%Z 1000 []). reflexivity.
Defined.

Lemma start_without_processor_is_noop_witness :
  processor_ demo_fresh = None /\ start demo_fresh = demo_fresh.
Proof.
  split; [reflexivity|].
  apply (start_without_processor_is_noop process_int demo_fresh);
    [apply reach_create | reflexivity].
Defined.

Lemma restart_after_stop_rejects_data_witness :
  isRunning_ avg_worked = true
  /\ stop_int avg_worked avg_join = Done tt avg_stopped
  /\ isRunning_ (start avg_stopped) = true
  /\ workers_ (start avg_stopped) = replicate 2 AtLoop.
Proof.
  split; [reflexivity|]. split; [reflexivity|].
  destruct (restart_after_stop_rejects_data process_int avg_worked avg_stopped
              avg_join (StatisticalProcessor 30%Z 2%Z))
    as (H1 & H2 & _); [reflexivity | reflexivity | reflexivity |].
  split; [exact H1 | exact H2].
Defined.

Lemma stop_leaves_output_queue_open_witness :
  stop_int avg_worked avg_join = Done tt avg_stopped
  /\ shutdown_ (outputQueue_ avg_stopped) = false
  /\ getResults 2 100 avg_stopped [] = Done [20; 15]%Z
       (set_outputQueue (clear (outputQueue_ avg_stopped)) avg_stopped).
Proof.
  split; [reflexivity|].
  destruct (stop_leaves_output_queue_open process_int avg_worked avg_stopped avg_join)
    as (_ & H2 & _ & _ & H5 & _); [apply avg_worked_reachable | reflexivity |].
  split; [exact H2 | exact (H5 100%Z [])].
Defined.

(** C1 as stated fails: [demo_restarted] has been stopped and started
    again with its processor, it is running and its input queue is empty,
    yet [addData] with the default timeout returns false, leaving the
    pipeline as it was, and under no schedule does it return true. *)
Lemma restart_after_stop_addData_fails :
  stop_int demo_running [Run 0 0] = Done tt demo_stopped
  /\ isRunning_ demo_restarted = true
  /\ processor_ demo_restarted = Some (NumericProcessor 2%Z)
  /\ workers_ demo_restarted = [AtLoop]
  /\ full (inputQueue_ demo_restarted) = false
  /\ addData 7%Z 1000 demo_restarted [mkRound [] 1000] = Done false demo_restarted
  /\ ~ (exists sch, value_of (addData 7%Z 1000 demo_restarted sch) = Some true).
Proof.
  repeat split.
  intros [sch Hsch]. unfold addData in Hsch.
  change (isRunning_ demo_restarted) with true in Hsch. simpl negb in Hsch. cbv iota in Hsch.
  pose proof (enqueue_after_shutdown_not_true 7%Z 1000 (inputQueue_ demo_restarted) sch
                eq_refl) as Hne.
  destruct (enqueue 7%Z 1000 (inputQueue_ demo_restarted) sch); simpl in *; congruence.
Qed.

(** ** Further properties of the queue *)

Section QueueMore.
Context {T : Type}.
Implicit Types (q : DataQueue T) (sch : schedule T) (item : T).

Lemma wait_of_stuck pred t q sch q' :
  wait_of pred t q sch = Stuck q' -> pred q' = false.
Proof.
  unfold wait_of. destruct (0 <? t)%Z.
  - revert t q. induction sch as [|r sch IH]; intros t q; simpl.
    + destruct (pred q) eqn:E; [discriminate|]. now intros [= <-].
    + destruct (pred q) eqn:E; [discriminate|].
      destruct (t <=? Z.of_nat (elapsed r))%Z; [discriminate | apply IH].
  - revert q. induction sch as [|r sch IH]; intros q; simpl.
    + destruct (pred q) eqn:E; [discriminate|]. now intros [= <-].
    + destruct (pred q) eqn:E; [discriminate | apply IH].
Qed.

(** If the predicate is false on entry and true after the first round, the
    wait ends there, with or without a timeout. *)
Lemma wait_of_first_round pred t q (r : round T) sch :
  pred q = false -> pred (apply_qops (others r) q) = true ->
  wait_of pred t q (r :: sch) = Woken true (apply_qops (others r) q).
Proof.
  intros Hq Hq'. unfold wait_of. destruct (0 <? t)%Z; simpl; rewrite Hq.
  - destruct (t <=? Z.of_nat (elapsed r))%Z; [now rewrite Hq'|].
    destruct sch; simpl; now rewrite Hq'.
  - destruct sch; simpl; now rewrite Hq'.
Qed.

Lemma pop_front_push_back_empty item q :
  queue_ q = [] -> pop_front (push_back item q) = q.
Proof. destruct q; simpl; intros ->; reflexivity. Qed.

(** X1.  [enqueue] returns true only by appending the item to a queue that is
    open and below capacity at that moment; it returns false, or is left
    waiting, only with the queue full or shut down. *)
Theorem enqueue_outcome_sound item t q sch :
  match enqueue item t q sch with
  | Returned true q' =>
      exists q0, evolves q q0 /\ notFull_pred q0 = true /\ q' = push_back item q0
  | Returned false q' => evolves q q' /\ notFull_pred q' = false
  | Blocked q' => evolves q q' /\ notFull_pred q' = false
  end.
Proof.
  unfold enqueue. fold (wait_of notFull_pred t q sch).
  pose proof (wait_of_evolves notFull_pred t q sch) as Hev.
  destruct (wait_of notFull_pred t q sch) as [b q'|q'] eqn:E; simpl in Hev.
  - apply wait_of_woken in E. destruct b.
    + destruct (notFull_pred_true q') as [Hpt _].
      destruct (Hpt E) as [_ ->]. eauto.
    + auto.
  - apply wait_of_stuck in E. auto.
Qed.


Lemma cv_wait_for_deadline pred t q sch :
  (0 < t)%Z -> (t <= total_elapsed sch)%Z ->
  exists b q', cv_wait_for pred t q sch = Woken b q'.
Proof.
  revert t q. induction sch as [|r sch IH]; intros t q Ht Hel; simpl in *.
  - lia.
  - destruct (pred q); [eauto|].
    destruct (Z.leb_spec t (Z.of_nat (elapsed r))); [eauto|].
    apply IH; lia.
Qed.

(** X3.  Whatever the other threads do, a call with a positive timeout has
    returned once that much time has gone by. *)
Theorem timed_calls_return_by_deadline item t q sch :
  (0 < t)%Z -> (t <= total_elapsed sch)%Z ->
  result_of (enqueue item t q sch) <> None
  /\ result_of (dequeue t q sch) <> None.
Proof.
  intros Ht Hel. unfold enqueue, dequeue.
  destruct (Z.ltb_spec 0 t); [|lia]. split.
  - destruct (cv_wait_for_deadline notFull_pred t q sch Ht Hel) as (b & q' & ->).
    destruct b; [destruct (shutdown_ q')|]; discriminate.
  - destruct (cv_wait_for_deadline notEmpty_pred t q sch Ht Hel) as (b & q' & ->).
    destruct b; [destruct (queue_ q')|]; discriminate.
Qed.

(** X4.  Without a timeout there is no way out but the predicate: a producer on
    a full queue and a consumer on an empty open one are still waiting after
    any length of time in which nobody else touches the queue. *)
Theorem untimed_calls_wait_for_others item t q sch :
  (t <= 0)%Z -> quiet sch = true ->
  (notFull_pred q = false -> enqueue item t q sch = Blocked q)
  /\ (notEmpty_pred q = false -> dequeue t q sch = Blocked q).
Proof.
  intros Ht Hq. split; intros Hp.
  - now apply enqueue_full_quiet_untimed.
  - unfold dequeue. destruct (Z.ltb_spec 0 t); [lia|].
    now rewrite cv_wait_quiet.
Qed.

(** X5.  Round trip: on an empty open queue of non-zero capacity, [enqueue]
    succeeds at once and the next [dequeue] hands the same item back,
    leaving the queue as it was. *)
Theorem enqueue_dequeue_round_trip item t t' q sch sch' :
  queue_ q = [] -> shutdown_ q = false -> (0 < maxSize_ q)%nat ->
  enqueue item t q sch = Returned true (push_back item q)
  /\ dequeue t' (push_back item q) sch' = Returned (Some item) q.
Proof.
  intros He Hs Hm. split.
  - apply enqueue_now. apply notFull_pred_true. rewrite He. simpl. auto.
  - rewrite (dequeue_now_front t' (push_back item q) sch' item [])
      by (simpl; now rewrite He).
    now rewrite pop_front_push_back_empty.
Qed.

Lemma dequeue_all_exact (args : list (Z * schedule T)) q :
  length args = length (queue_ q) ->
  dequeue_all args q = (map Some (queue_ q), clear q).
Proof.
  revert q. induction args as [|[t sch] args IH]; intros q Hlen; simpl.
  - destruct (queue_ q) eqn:E; [|discriminate]. simpl.
    now rewrite clear_drained.
  - destruct (queue_ q) as [|x l] eqn:E; [discriminate|].
    rewrite (dequeue_now_front t q sch x l E).
    simpl in Hlen. injection Hlen as Hlen.
    rewrite IH; simpl; rewrite ?E; simpl; auto.
Qed.

Lemma enqueue_all_fits (args : list (T * Z * schedule T)) q :
  shutdown_ q = false ->
  (length (queue_ q) + length args <= maxSize_ q)%nat ->
  enqueue_all args q
  = (replicate (length args) true,
     mkDataQueue (queue_ q ++ map (fun a => fst (fst a)) args) (maxSize_ q) false).
Proof.
  revert q. induction args as [|[[item t] sch] args IH]; intros q Hs Hlen; simpl.
  - rewrite app_nil_r. destruct q; simpl in *; subst; reflexivity.
  - simpl in Hlen. rewrite enqueue_now
      by (apply notFull_pred_true; split; [lia | assumption]).
    rewrite IH; simpl; auto.
    + rewrite <- app_assoc. reflexivity.
    + rewrite length_app. simpl. lia.
Qed.

(** X6.  FIFO: a batch of items that fits into an open queue goes in without
    waiting, behind what is there, and as many [dequeue] calls as the queue
    then holds items return the old items and then the batch, in order. *)
Theorem batch_in_batch_out (args : list (T * Z * schedule T))
    (dargs : list (Z * schedule T)) q :
  shutdown_ q = false ->
  (length (queue_ q) + length args <= maxSize_ q)%nat ->
  length dargs = (length (queue_ q) + length args)%nat ->
  fst (enqueue_all args q) = replicate (length args) true
  /\ fst (dequeue_all dargs (snd (enqueue_all args q)))
     = map Some (queue_ q ++ map (fun a => fst (fst a)) args)
  /\ queue_ (snd (dequeue_all dargs (snd (enqueue_all args q)))) = [].
Proof.
  intros Hs Hfit Hlen. rewrite enqueue_all_fits by assumption. simpl.
  rewrite dequeue_all_exact by (simpl; rewrite length_app, length_map; lia).
  simpl. auto.
Qed.

(** X7.  [clear()] lets a waiting producer through: a producer that finds the
    queue full and open goes in as soon as another thread has cleared it,
    and its item is then the only one. *)
Theorem clear_releases_producer item t q ms sch :
  notFull_pred q = false -> shutdown_ q = false -> (0 < maxSize_ q)%nat ->
  enqueue item t q (mkRound [OpClear] ms :: sch)
  = Returned true (push_back item (clear q))
  /\ queue_ (push_back item (clear q)) = [item].
Proof.
  intros Hf Hs Hm. split; [|reflexivity].
  unfold enqueue. fold (wait_of notFull_pred t q (mkRound [OpClear] ms :: sch)).
  rewrite wait_of_first_round; simpl.
  - now rewrite Hs.
  - exact Hf.
  - apply notFull_pred_true. simpl. auto.
Qed.

(** X8.  [shutdown()] lets a waiting consumer go: a consumer that finds the
    queue empty and open returns the empty result as soon as another thread
    has shut the queue down, with or without a timeout. *)
Theorem shutdown_releases_consumer t q ms sch :
  queue_ q = [] -> shutdown_ q = false ->
  dequeue t q (mkRound [OpShutdown] ms :: sch) = Returned None (shutdown q).
Proof.
  intros He Hs.
  unfold dequeue. fold (wait_of notEmpty_pred t q (mkRound [OpShutdown] ms :: sch)).
  rewrite wait_of_first_round; simpl.
  - now rewrite He.
  - apply notEmpty_pred_false. auto.
  - now apply notEmpty_pred_shutdown.
Qed.

(** X9.  Hand-off: a consumer waiting on an empty open queue gets the item a
    producer pushes meanwhile, and the queue is empty again. *)
Theorem waiting_consumer_gets_pushed_item item t q ms sch :
  queue_ q = [] -> shutdown_ q = false -> (0 < maxSize_ q)%nat ->
  dequeue t q (mkRound [OpPush item] ms :: sch) = Returned (Some item) q.
Proof.
  intros He Hs Hm.
  assert (Hnf : notFull_pred q = true)
    by (apply notFull_pred_true; rewrite He; simpl; auto).
  unfold dequeue. fold (wait_of notEmpty_pred t q (mkRound [OpPush item] ms :: sch)).
  rewrite wait_of_first_round; simpl; rewrite ?Hnf; simpl.
  - rewrite He. simpl. now rewrite pop_front_push_back_empty.
  - apply notEmpty_pred_false. auto.
  - unfold notEmpty_pred. simpl. rewrite He. reflexivity.
Qed.

(** X10.  [peek] shows what the next [dequeue] returns: with an item in front,
    [dequeue] returns that item at once; [peek] is empty exactly on an empty
    queue. *)
Theorem peek_agrees_with_dequeue q :
  match peek q with
  | Some x => forall t sch, dequeue t q sch = Returned (Some x) (pop_front q)
  | None => queue_ q = [] /\ empty q = true /\ size q = 0%nat
  end.
Proof.
  unfold peek, empty, size. destruct (queue_ q) as [|x l] eqn:E; simpl.
  - auto.
  - intros t sch. now apply (dequeue_now_front t q sch x l).
Qed.

(** X11.  The introspection functions agree with each other on every queue a
    sequence of calls can produce: [full] exactly when the size equals the
    capacity, [empty] exactly when the size is 0, [getStats] the same four
    values. *)
Theorem introspection_consistent (cap : nat) (cs : list (call T)) :
  let q := run_calls cs (Queue.create cap) in
  (full q = true <-> size q = cap)
  /\ (empty q = true <-> size q = 0%nat)
  /\ getStats q = mkStats (size q) cap (full q) (empty q).
Proof.
  intros q. destruct (run_calls_evolves cs (Queue.create cap)) as (Hm & Hb & _).
  fold q in Hm, Hb. simpl in Hm.
  assert (Hbq : bounded q) by (apply Hb; unfold bounded; simpl; lia).
  unfold bounded in Hbq. unfold full, empty, size, getStats.
  rewrite Hm in *. repeat split.
  - intros H%Nat.leb_le. lia.
  - intros H. apply Nat.leb_le. lia.
  - intros H%bool_decide_eq_true. now rewrite H.
  - intros H. apply bool_decide_eq_true. now apply length_zero_iff_nil.
Qed.

End QueueMore.

(** ** Further properties of the processors and of the factory *)

Lemma wrap32_in_int z : in_int z -> wrap32 z = z.
Proof.
  unfold in_int, wrap32. change (2 ^ 31)%Z with 2147483648%Z.
  change (2 ^ 32)%Z with 4294967296%Z. intros Hz.
  rewrite Z.mod_small; lia.
Qed.

Lemma quot_in_int a c : in_int a -> (0 < c)%Z -> in_int (Z.quot a c).
Proof.
  unfold in_int. change (2 ^ 31)%Z with 2147483648%Z. intros Ha Hc.
  destruct (Z.le_gt_cases 0 a) as [Hpos|Hneg].
  - pose proof (Z.quot_range_nonneg 2147483648 a c). lia.
  - pose proof (Z.quot_range_nonneg 2147483649 (- a) c) as Hq.
    rewrite Z.quot_opp_l in Hq by lia. lia.
Qed.

Lemma statistical_run (xs : list Z) (tot cnt : Z) :
  (0 <= cnt)%Z -> (cnt + Z.of_nat (length xs) < 2 ^ 31)%Z ->
  (forall k, (k <= length xs)%nat -> in_int (tot + sum_int (take k xs))%Z) ->
  process_all (StatisticalProcessor tot cnt) xs
  = (StatisticalProcessor (tot + sum_int xs)%Z (cnt + Z.of_nat (length xs))%Z,
     map (fun k => Z.quot (tot + sum_int (take (S k) xs))%Z (cnt + Z.of_nat (S k))%Z)
       (seq 0 (length xs))).
Proof.
  revert tot cnt. induction xs as [|x xs IH]; intros tot cnt Hc Hlen Hsum.
  - simpl. rewrite !Z.add_0_r. reflexivity.
  - assert (Htot : in_int (tot + x)%Z).
    { specialize (Hsum 1%nat). simpl in Hsum. rewrite Z.add_0_r in Hsum.
      apply Hsum. lia. }
    assert (Hcnt : in_int (cnt + 1)%Z).
    { unfold in_int. simpl length in Hlen. change (2 ^ 31)%Z with 2147483648%Z in *.
      lia. }
    cbn [process_all process num_add num_div_count Numeric_int].
    rewrite (wrap32_in_int _ Htot), (wrap32_in_int _ Hcnt).
    rewrite (wrap32_in_int _ (quot_in_int _ (cnt + 1)%Z Htot ltac:(lia))).
    rewrite IH.
    + cbn [length seq map]. rewrite <- seq_shift, map_map.
      f_equal; [f_equal; simpl; lia|].
      f_equal; [simpl; f_equal; lia|].
      apply map_ext. intros k. simpl. f_equal; lia.
    + lia.
    + simpl length in Hlen. lia.
    + intros k Hk. specialize (Hsum (S k)). simpl in Hsum.
      replace (tot + x + sum_int (take k xs))%Z
        with (tot + (x + sum_int (take k xs)))%Z by lia.
      apply Hsum. lia.
Qed.

(** X12.  The running average in general: as long as the sums stay within [int]
    and there are fewer than 2^31 inputs, the k-th output of a fresh
    [StatisticalProcessor<int>] is the sum of the first k inputs divided by
    k, rounded toward zero, and the processor is left holding the sum and
    the number of all inputs. *)
Theorem running_average_is_prefix_mean (xs : list Z) :
  (Z.of_nat (length xs) < 2 ^ 31)%Z ->
  (forall k, (k <= length xs)%nat -> in_int (sum_int (take k xs))) ->
  process_all (T := Z) StatisticalProcessor_new xs
  = (StatisticalProcessor (sum_int xs) (Z.of_nat (length xs)),
     map (fun k => Z.quot (sum_int (take (S k) xs)) (Z.of_nat (S k)))
       (seq 0 (length xs))).
Proof.
  intros Hlen Hsum. unfold StatisticalProcessor_new. cbn [num_zero Numeric_int].
  rewrite statistical_run; [reflexivity | lia | lia | exact Hsum].
Qed.

Lemma reset_process {T : Type} `{Numeric T} (p : Processor T) (x : T) :
  reset (fst (process p x)) = reset p.
Proof. destruct p; reflexivity. Qed.

Lemma reset_process_all {T : Type} `{Numeric T} (p : Processor T) (xs : list T) :
  reset (fst (process_all p xs)) = reset p.
Proof.
  revert p. induction xs as [|x xs IH]; intros p; simpl; [reflexivity|].
  destruct (process p x) as [p' y] eqn:E.
  specialize (IH p'). destruct (process_all p' xs) as [p'' ys]. simpl in *.
  rewrite IH. change p' with (fst (p', y)). rewrite <- E. apply reset_process.
Qed.

(** X13.  [reset()] forgets the history: whatever a processor has been fed, after
    a reset it answers like the reset original, for every item type; a
    [StatisticalProcessor] starts over from nothing and the other
    processors, which keep no history, are unchanged by both. *)
Theorem reset_forgets_history {T : Type} `{Numeric T}
    (p : Processor T) (xs ys : list T) :
  process_all (reset (fst (process_all p xs))) ys = process_all (reset p) ys
  /\ match p with
     | StatisticalProcessor _ _ =>
         reset (fst (process_all p xs)) = StatisticalProcessor_new
     | _ => fst (process_all p xs) = p /\ reset p = p
     end.
Proof.
  split; [now rewrite reset_process_all|].
  destruct p as [m|tot cnt|th|g]; try (rewrite reset_process_all; reflexivity);
    (split; [|reflexivity]);
    (induction xs as [|x xs IH]; simpl; [reflexivity|];
     match goal with
     | |- context [process_all ?q xs] =>
         destruct (process_all q xs) as [p'' zs]; simpl in *; exact IH
     end).
Qed.


Lemma length_string_app (s1 s2 : string) :
  String.length (s1 +:+ s2) = (String.length s1 + String.length s2)%nat.
Proof. induction s1 as [|c s1 IH]; simpl; [reflexivity | now rewrite IH]. Qed.

Lemma length_repeat_string (n : nat) (input : string) :
  String.length (repeat_string n input) = (n * String.length input)%nat.
Proof.
  induction n as [|n IH]; simpl; [reflexivity|].
  rewrite length_string_app, IH. lia.
Qed.

(** X15.  The string processor returns [repetitions_] copies of its input end to
    end: the result is [repetitions_] times as long, and it is the empty
    string when [repetitions_] is zero or negative; the processor itself
    does not change. *)
Theorem string_processor_length (p : StringProcessor) (input : string) :
  String.length (snd (process_string p input))
  = (Z.to_nat (repetitions_ p) * String.length input)%nat
  /\ ((repetitions_ p <= 0)%Z -> snd (process_string p input) = ""%string)
  /\ fst (process_string p input) = p.
Proof.
  unfold process_string; simpl. repeat split.
  - apply length_repeat_string.
  - intros Hr. now rewrite Z2Nat.nonpos.
Qed.

(** X16.  The factories read the parameter they need and nothing else: adding a
    parameter under any other name changes nothing, for every identifier
    and every item type. *)
Theorem createProcessor_ignores_other_params {T : Type} `{Numeric T}
    (type : ProcessorType) (params : gmap string float) (k : string) (v : float) :
  k <> "multiplier"%string -> k <> "threshold"%string -> k <> "gain"%string ->
  k <> "repetitions"%string ->
  createProcessor (T := T) type (<[k := v]> params) = createProcessor type params
  /\ createProcessor_string type (<[k := v]> params)
     = createProcessor_string type params.
Proof.
  intros Hm Ht Hg Hr. unfold createProcessor, createProcessor_string, param.
  rewrite !lookup_insert_ne by assumption. auto.
Qed.

(** X17.  What the factories build when the parameter is missing: a multiplier
    of 2, a threshold of 0, a gain of 1.5, two repetitions. *)
Theorem createProcessor_defaults (params : gmap string float) :
  params !! "multiplier"%string = None -> params !! "threshold"%string = None ->
  params !! "gain"%string = None -> params !! "repetitions"%string = None ->
  createProcessor (T := Z) NUMERIC params = inl (NumericProcessor 2%Z)
  /\ createProcessor (T := Z) FILTERING params = inl (FilteringProcessor 0%Z)
  /\ createProcessor (T := Z) AMPLIFICATION params
     = inl (AmplificationProcessor 1.5%float)
  /\ createProcessor (T := float) NUMERIC params = inl (NumericProcessor 2%float)
  /\ createProcessor_string NUMERIC params = inl (mkStringProcessor 2%Z).
Proof.
  intros Hm Ht Hg Hr. unfold createProcessor, createProcessor_string, param.
  rewrite Hm, Ht, Hg, Hr. repeat split.
Qed.

(** ** Further properties of the pipeline *)

Section SystemMore.
Context {T P : Type} (process : P -> T -> P * option T).
Implicit Types (s : ProcessingSystem T P) (q : DataQueue T) (sch : schedule T).

Lemma enqueue_quiet_cases (item : T) t q sch :
  quiet sch = true ->
  match enqueue item t q sch with
  | Returned true q' => q' = push_back item q
  | Returned false q' => q' = q
  | Blocked q' => q' = q
  end.
Proof.
  intros Hq. unfold enqueue. fold (wait_of notFull_pred t q sch).
  pose proof (wait_of_quiet_state notFull_pred t q sch Hq) as E.
  destruct (wait_of notFull_pred t q sch) as [[|] q'|q']; simpl in *; subst q'; auto.
  destruct (shutdown_ q); reflexivity.
Qed.


(** *** start and stop *)

(** X18.  A second [start()] changes nothing: on a running pipeline it returns
    at once, so the workers are those of the first call; without a
    processor both calls leave the pipeline stopped. *)
Theorem start_idempotent s :
  start (start s) = start s /\ (isRunning_ s = true -> start s = s).
Proof.
  destruct s as [n qi qo ws run proc tp te]. unfold start; simpl.
  destruct run, proc; simpl;
    (split; [reflexivity | intros Hx; (reflexivity || discriminate Hx)]).
Qed.

(** X19.  A [stop()] that has returned leaves a pipeline on which any further
    [stop()] returns at once and changes nothing. *)
Theorem stop_twice s s' join join' :
  stop process s join = Done tt s' -> stop process s' join' = Done tt s'.
Proof.
  intros Hstop.
  assert (Hr : isRunning_ s' = false).
  { destruct (isRunning_ s) eqn:Er.
    - now destruct (stop_done process s s' join Er Hstop) as (_ & Hr & _).
    - unfold stop in Hstop. rewrite Er in Hstop. simpl in Hstop. congruence. }
  unfold stop. now rewrite Hr.
Qed.

Lemma existsb_insert {A : Type} (f : A -> bool) (l : list A) (i : nat) (w : A) :
  existsb f (<[i := w]> l) = true -> f w = true \/ existsb f l = true.
Proof.
  revert i. induction l as [|a l IH]; intros i; simpl; [discriminate|].
  destruct i as [|i]; simpl.
  - intros [Hw|Hl]%orb_true_iff; [auto | right; rewrite Hl; apply orb_true_r].
  - intros [Ha|Hl]%orb_true_iff; [right; now rewrite Ha|].
    destruct (IH i Hl) as [Hw|Hl']; [auto | right; rewrite Hl'; apply orb_true_r].
Qed.







(** *** The workers *)

Lemma worker_enqueue_accounting i (res : T) t sch left s :
  quiet sch = true ->
  let s' := worker_enqueue i res t sch left s in
  (outputQueue_ s' = outputQueue_ s
   /\ totalProcessed_ s' = totalProcessed_ s
   /\ (totalErrors_ s' = totalErrors_ s \/ totalErrors_ s' = incr (totalErrors_ s)))
  \/ (outputQueue_ s' = push_back res (outputQueue_ s)
      /\ totalProcessed_ s' = incr (totalProcessed_ s)
      /\ totalErrors_ s' = totalErrors_ s).
Proof.
  intros Hq. unfold worker_enqueue.
  pose proof (enqueue_quiet_cases res t (outputQueue_ s) sch Hq) as E.
  destruct (enqueue res t (outputQueue_ s) sch) as [[|] q|q]; simpl; subst q; auto.
Qed.

(** X21.  Results delivered are results counted: in one turn a worker either
    leaves the output queue and [totalProcessed_] alone, with at most one
    error counted, or appends one result to the output queue and counts it
    in [totalProcessed_], with no error counted. *)
Theorem worker_turn_accounting i ms s :
  let s' := run_worker process i ms s in
  (outputQueue_ s' = outputQueue_ s
   /\ totalProcessed_ s' = totalProcessed_ s
   /\ (totalErrors_ s' = totalErrors_ s \/ totalErrors_ s' = incr (totalErrors_ s)))
  \/ (exists res, outputQueue_ s' = push_back res (outputQueue_ s)
      /\ totalProcessed_ s' = incr (totalProcessed_ s)
      /\ totalErrors_ s' = totalErrors_ s).
Proof.
  unfold run_worker.
  destruct (workers_ s !! i) as [[| t | item | res t |]|]; simpl; auto.
  - destruct (isRunning_ s || negb (empty (inputQueue_ s))); simpl; auto.
    unfold worker_dequeue.
    destruct (dequeue 500 (inputQueue_ s) []) as [[x|] q|q]; simpl; auto.
  - unfold worker_dequeue.
    destruct (dequeue t (inputQueue_ s) _) as [[x|] q|q]; simpl; auto.
  - destruct (mutex_held s); simpl; auto.
    destruct (processor_ s) as [p|]; simpl; auto.
    destruct (process p item) as [p' [res|]]; simpl; auto.
    destruct (worker_enqueue_accounting i res 500 [] 500
                (set_processor (Some p') s) eq_refl) as [H|H]; simpl in H; eauto.
  - destruct (worker_enqueue_accounting i res t [mkRound [] ms]
                (t - Z.of_nat ms)%Z s eq_refl) as [H|H]; eauto.
Qed.

Lemma run_worker_takes_item i ms s x l :
  workers_ s !! i = Some AtLoop -> isRunning_ s = true ->
  queue_ (inputQueue_ s) = x :: l ->
  run_worker process i ms s
  = set_worker i (HasItem x) (set_inputQueue (pop_front (inputQueue_ s)) s).
Proof.
  intros Hw Hr Hq. unfold run_worker. rewrite Hw, Hr. simpl.
  unfold worker_dequeue.
  now rewrite (dequeue_now_front 500 (inputQueue_ s) [] x l Hq).
Qed.

Lemma run_worker_delivers i ms s x p p' res :
  workers_ s !! i = Some (HasItem x) -> mutex_held s = false ->
  processor_ s = Some p -> process p x = (p', Some res) ->
  notFull_pred (outputQueue_ s) = true ->
  run_worker process i ms s
  = set_worker i AtLoop
      (incr_processed
         (set_outputQueue (push_back res (outputQueue_ s))
            (set_processor (Some p') s))).
Proof.
  intros Hw Hm Hp Hpr Hnf. unfold run_worker. rewrite Hw, Hm, Hp, Hpr.
  unfold worker_enqueue. simpl.
  now rewrite (enqueue_now res 500 (outputQueue_ s) [] Hnf).
Qed.

Lemma existsb_insert_false {A : Type} (f : A -> bool) (l : list A) (i : nat) (w : A) :
  existsb f l = false -> f w = false -> existsb f (<[i := w]> l) = false.
Proof.
  intros Hl Hw. destruct (existsb f (<[i := w]> l)) eqn:E; [|reflexivity].
  destruct (existsb_insert f l i w E); congruence.
Qed.

Lemma system_ext s s' :
  numWorkers_ s = numWorkers_ s' -> inputQueue_ s = inputQueue_ s' ->
  outputQueue_ s = outputQueue_ s' -> workers_ s = workers_ s' ->
  isRunning_ s = isRunning_ s' -> processor_ s = processor_ s' ->
  totalProcessed_ s = totalProcessed_ s' -> totalErrors_ s = totalErrors_ s' ->
  s = s'.
Proof. destruct s, s'; simpl; intros; subst; reflexivity. Qed.

Lemma worker_round_restores s i (x : T) qi qo pp :
  workers_ s !! i = Some AtLoop ->
  set_worker i AtLoop
    (incr_processed
       (set_outputQueue qo
          (set_processor pp
             (set_worker i (HasItem x)
                (set_inputQueue (inputQueue_ s) (set_inputQueue qi s))))))
  = incr_processed (set_outputQueue qo (set_processor pp s)).
Proof.
  intros Hw. apply system_ext; try reflexivity.
  change (<[i := AtLoop]> (<[i := HasItem x]> (workers_ s)) = workers_ s).
  now rewrite list_insert_insert_eq, (list_insert_id _ _ _ Hw).
Qed.

(** X22.  One item through an idle pipeline: on a running pipeline with an empty
    input queue, room in both queues, the processor mutex free and worker
    [i] at the head of its loop, [addData] accepts the item at once, and two
    turns of worker [i] later the processor's answer is at the back of the
    output queue and counted as processed, the processor has moved on, and
    the input queue and the workers are as before. *)
Theorem submitted_item_is_processed s i (x res : T) t sch ms ms' (p p' : P) :
  isRunning_ s = true -> queue_ (inputQueue_ s) = [] ->
  notFull_pred (inputQueue_ s) = true -> notFull_pred (outputQueue_ s) = true ->
  workers_ s !! i = Some AtLoop -> mutex_held s = false ->
  processor_ s = Some p -> process p x = (p', Some res) ->
  exists s1,
    addData x t s sch = Done true s1
    /\ run_events process [Run i ms; Run i ms'] s1
       = incr_processed
           (set_outputQueue (push_back res (outputQueue_ s))
              (set_processor (Some p') s)).
Proof.
  intros Hr He Hnf Hnfo Hw Hm Hp Hpr.
  exists (set_inputQueue (push_back x (inputQueue_ s)) s). split.
  - unfold addData. rewrite Hr. simpl. now rewrite enqueue_now.
  - cbn [run_events foldl run_event].
    set (s1 := set_inputQueue (push_back x (inputQueue_ s)) s).
    rewrite (run_worker_takes_item i ms s1 x []);
      [| exact Hw | exact Hr | simpl; now rewrite He].
    change (inputQueue_ s1) with (push_back x (inputQueue_ s)).
    rewrite (pop_front_push_back_empty x _ He). subst s1.
    rewrite (run_worker_delivers i ms' _ x p p' res).
    + now apply worker_round_restores.
    + apply list_lookup_insert_eq. eapply lookup_lt_Some. exact Hw.
    + unfold mutex_held in *. now apply existsb_insert_false.
    + exact Hp.
    + exact Hpr.
    + exact Hnfo.
Qed.

(** X23.  The lossy side of the output queue: a worker waiting to deliver a
    result to a full output queue gives up when its timeout has gone by,
    counts an error and goes back to the head of its loop; the result is
    neither delivered nor kept.  Before that it keeps waiting, holding the
    result. *)
Theorem worker_drops_result_on_timeout i (res : T) t ms s :
  workers_ s !! i = Some (InEnqueue res t) ->
  notFull_pred (outputQueue_ s) = false -> (0 < t)%Z ->
  run_worker process i ms s
  = if (t <=? Z.of_nat ms)%Z then set_worker i AtLoop (incr_errors s)
    else set_worker i (InEnqueue res (t - Z.of_nat ms)) s.
Proof.
  intros Hw Hf Ht. unfold run_worker. rewrite Hw. unfold worker_enqueue.
  rewrite enqueue_full_quiet by auto. simpl. rewrite Z.add_0_r.
  destruct (t <=? Z.of_nat ms)%Z; now rewrite set_outputQueue_same.
Qed.

(** *** getResults *)



Lemma dequeue_returns_by_deadline t q sch :
  (0 < t)%Z -> (t <= total_elapsed sch)%Z ->
  exists r q', dequeue t q sch = Returned r q'.
Proof.
  intros Ht Hel. unfold dequeue. destruct (Z.ltb_spec 0 t); [|lia].
  destruct (cv_wait_for_deadline notEmpty_pred t q sch Ht Hel) as (b & q' & ->).
  destruct b; [destruct (queue_ q')|]; eauto.
Qed.

Lemma getResults_loop_returns count t s schs results :
  (0 < t)%Z -> length schs = count ->
  forallb (fun sch => (t <=? total_elapsed sch)%Z) schs = true ->
  exists l s', getResults_loop count t s schs results = Done l s'
    /\ (length l <= length results + count)%nat.
Proof.
  intros Ht. revert s schs results.
  induction count as [|count IH]; intros s schs results Hlen Hel; simpl.
  - exists results, s. split; [reflexivity | lia].
  - destruct schs as [|sch schs]; [discriminate|]. simpl in *.
    apply andb_true_iff in Hel as [Hsch Hel]. apply Z.leb_le in Hsch.
    destruct (dequeue_returns_by_deadline t (outputQueue_ s) sch Ht Hsch)
      as (r & q' & ->).
    destruct (IH (set_outputQueue q' s) schs
                (match r with Some v => results ++ [v] | None => results end))
      as (l & s' & -> & Hl); [congruence | exact Hel |].
    exists l, s'. split; [reflexivity|].
    destruct r; [rewrite length_app in Hl; simpl in Hl|]; lia.
Qed.

(** X25.  [getResults] with a positive timeout does not wait for ever: whatever
    the other threads do, once each of its [count] dequeues has had its
    timeout it has returned, with at most [count] results. *)
Theorem getResults_returns_by_deadlines count t s schs :
  (0 < t)%Z -> length schs = count ->
  forallb (fun sch => (t <=? total_elapsed sch)%Z) schs = true ->
  exists l s', getResults count t s schs = Done l s' /\ (length l <= count)%nat.
Proof.
  intros Ht Hlen Hel. unfold getResults.
  destruct (getResults_loop_returns count t s schs [] Ht Hlen Hel)
    as (l & s' & -> & Hl).
  exists l, s'. auto.
Qed.

End SystemMore.

(** X26.  [setProcessorByType]: an identifier the factory rejects leaves the call
    by exception before anything is installed; one it accepts installs a
    processor and touches nothing else, running or not.  For [int] items
    the four known identifiers are accepted, for strings NUMERIC alone. *)
Theorem setProcessorByType_cases (type : ProcessorType)
    (params : gmap string float) (si : IntSystem) (ss : StringSystem) :
  match setProcessorByType_int type params si with
  | inl s' =>
      known type = true /\ is_Some (processor_ s')
      /\ set_processor (processor_ si) s' = si
  | inr e => known type = false /\ e = invalid_argument "Unknown processor type"
  end
  /\ match setProcessorByType_string type params ss with
     | inl s' =>
         type = NUMERIC /\ is_Some (processor_ s')
         /\ set_processor (processor_ ss) s' = ss
     | inr e => type <> NUMERIC
     end.
Proof.
  split.
  - unfold setProcessorByType_int. destruct (known type) eqn:Hk.
    + destruct (createProcessor_known (T := Z) type params Hk) as [p ->].
      repeat split; [eexists; reflexivity | destruct si; reflexivity].
    + rewrite (createProcessor_unknown type params Hk). auto.
  - unfold setProcessorByType_string, createProcessor_string.
    destruct (Z.eqb_spec type NUMERIC) as [->|Hn].
    + repeat split; [eexists; reflexivity | destruct ss; reflexivity].
    + destruct ((type =? STATISTICAL)%Z || (type =? FILTERING)%Z
                || (type =? AMPLIFICATION)%Z); exact Hn.
Qed.

(** ** The further properties at work on concrete pipelines and queues *)

Lemma timed_calls_return_by_deadline_witness :
  (0 < 50)%Z /\ (50 <= total_elapsed fifty_ms_alone)%Z
  /\ result_of (enqueue 4%Z 50 queue_123 fifty_ms_alone) <> None
  /\ result_of (dequeue 50 (Queue.create (T := Z) 3) fifty_ms_alone) <> None.
Proof.
  split; [lia|]. split; [vm_compute; discriminate|]. split.
  - apply (timed_calls_return_by_deadline 4%Z 50 queue_123 fifty_ms_alone);
      [lia | vm_compute; discriminate].
  - apply (timed_calls_return_by_deadline 4%Z 50 (Queue.create 3) fifty_ms_alone);
      [lia | vm_compute; discriminate].
Defined.

Lemma untimed_calls_wait_for_others_witness :
  (-1 <= 0)%Z /\ quiet fifty_ms_alone = true
  /\ notFull_pred queue_123 = false
  /\ enqueue 4%Z (-1) queue_123 fifty_ms_alone = Blocked queue_123.
Proof.
  split; [lia|]. split; [reflexivity|]. split; [reflexivity|].
  apply (untimed_calls_wait_for_others 4%Z (-1) queue_123 fifty_ms_alone);
    [lia | reflexivity | reflexivity].
Defined.

Lemma enqueue_dequeue_round_trip_witness :
  enqueue 7%Z 100 (Queue.create 3) [] = Returned true (push_back 7%Z (Queue.create 3))
  /\ dequeue (-1) (push_back 7%Z (Queue.create 3)) [] = Returned (Some 7%Z) (Queue.create 3).
Proof.
  apply (enqueue_dequeue_round_trip 7%Z 100 (-1) (Queue.create 3) [] []);
    [reflexivity | reflexivity | simpl; lia].
Defined.

Lemma batch_in_batch_out_witness :
  shutdown_ queue_12 = false
  /\ fst (dequeue_all (dequeue_args_a ++ dequeue_args_b)
            (snd (enqueue_all enqueue_args_a queue_12)))
     = map Some (queue_ queue_12 ++ map (fun a => fst (fst a)) enqueue_args_a).
Proof.
  split; [reflexivity|].
  destruct (batch_in_batch_out enqueue_args_a (dequeue_args_a ++ dequeue_args_b)
              queue_12) as (_ & H & _);
    [reflexivity | simpl; lia | reflexivity | exact H].
Defined.

Lemma clear_releases_producer_witness :
  notFull_pred queue_123 = false
  /\ enqueue 4%Z (-1) queue_123 [mkRound [OpClear] 10]
     = Returned true (push_back 4%Z (clear queue_123)).
Proof.
  split; [reflexivity|].
  apply (clear_releases_producer 4%Z (-1) queue_123 10 []);
    [reflexivity | reflexivity | simpl; lia].
Defined.

Lemma shutdown_releases_consumer_witness :
  dequeue (-1) (Queue.create (T := Z) 3) [mkRound [OpShutdown] 10]
  = Returned None (shutdown (Queue.create 3)).
Proof.
  apply (shutdown_releases_consumer (-1) (Queue.create 3) 10 []); reflexivity.
Defined.

Lemma waiting_consumer_gets_pushed_item_witness :
  dequeue 100 (Queue.create 3) [mkRound [OpPush 7%Z] 10]
  = Returned (Some 7%Z) (Queue.create 3).
Proof.
  apply (waiting_consumer_gets_pushed_item 7%Z 100 (Queue.create 3) 10 []);
    [reflexivity | reflexivity | simpl; lia].
Defined.

Lemma running_average_is_prefix_mean_witness :
  snd (process_all (T := Z) StatisticalProcessor_new [10; 20; 30]%Z)
  = map (fun k => Z.quot (sum_int (take (S k) [10; 20; 30]%Z)) (Z.of_nat (S k)))
      (seq 0 3).
Proof.
  rewrite (running_average_is_prefix_mean [10; 20; 30]%Z).
  - reflexivity.
  - simpl. lia.
  - intros k Hk. unfold in_int.
    destruct k as [|[|[|[|k]]]]; simpl in *; lia.
Defined.


Lemma string_processor_length_witness :
  (repetitions_ (mkStringProcessor (-1)) <= 0)%Z
  /\ snd (process_string (mkStringProcessor (-1)) "ab") = ""%string.
Proof.
  split; [simpl; lia|].
  destruct (string_processor_length (mkStringProcessor (-1)) "ab") as (_ & H & _).
  apply H. simpl. lia.
Defined.

Lemma createProcessor_ignores_other_params_witness :
  createProcessor (T := Z) NUMERIC (<["verbose"%string := 1%float]> ∅)
  = createProcessor NUMERIC ∅.
Proof.
  apply (createProcessor_ignores_other_params (T := Z) NUMERIC ∅ "verbose" 1%float);
    discriminate.
Defined.

Lemma createProcessor_defaults_witness :
  createProcessor (T := Z) NUMERIC ∅ = inl (NumericProcessor 2%Z).
Proof.
  apply (createProcessor_defaults ∅); reflexivity.
Defined.

Lemma start_idempotent_witness :
  isRunning_ demo_running = true /\ start demo_running = demo_running.
Proof.
  split; [reflexivity|].
  apply (start_idempotent demo_running). reflexivity.
Defined.

Lemma stop_twice_witness :
  stop_int avg_worked avg_join = Done tt avg_stopped
  /\ stop_int avg_stopped avg_full_join = Done tt avg_stopped.
Proof.
  split; [reflexivity|].
  apply (stop_twice process_int avg_worked avg_stopped avg_join avg_full_join).
  reflexivity.
Defined.


Lemma submitted_item_is_processed_witness :
  exists s1,
    addData 7%Z 1000 demo_running [] = Done true s1
    /\ run_events process_int [Run 0 0; Run 0 0] s1
       = incr_processed
           (set_outputQueue (push_back 14%Z (outputQueue_ demo_running))
              (set_processor (Some (NumericProcessor 2%Z)) demo_running)).
Proof.
  apply (submitted_item_is_processed process_int demo_running 0 7%Z 14%Z 1000 []
           0 0 (NumericProcessor 2%Z) (NumericProcessor 2%Z)); reflexivity.
Defined.

Lemma worker_drops_result_on_timeout_witness :
  workers_ tight_clogged !! 0%nat = Some (InEnqueue 4%Z 500)
  /\ run_worker process_int 0 500 tight_clogged
     = set_worker 0 AtLoop (incr_errors tight_clogged).
Proof.
  split; [reflexivity|].
  apply (worker_drops_result_on_timeout process_int 0 4%Z 500 500 tight_clogged);
    [reflexivity | reflexivity | lia].
Defined.


Lemma getResults_returns_by_deadlines_witness :
  (0 < 100)%Z /\ length three_waits = 3%nat
  /\ exists l s', getResults 3 100 avg_stopped three_waits = Done l s'
       /\ (length l <= 3)%nat.
Proof.
  split; [lia|]. split; [reflexivity|].
  apply (getResults_returns_by_deadlines 3 100 avg_stopped three_waits);
    [lia | reflexivity | reflexivity].
Defined.
